(** * Distributed tracing for database operations

    A shallow embedding of [src/distributed_tracer.py] (class
    [DistributedTracer]) and the properties of its recorder
    ([start_trace], [end_trace], [create_span], [end_span]), analyzer
    ([analyze_trace]) and aggregator ([get_service_performance]).

    Conventions of the embedding.
    - The two SQL tables are finite maps from their primary key to a row;
      the Python dict [active_traces] is a finite map as well.
    - A [string] is the UTF-8 encoding of a Python [str] that the
      database driver accepts (it has no NUL character); lengths and
      slices count characters (code points), as Python and PostgreSQL do.
    - A [DECIMAL(10,2)] value is an integer number of hundredths (of a
      millisecond); SQL [NULL] and Python [None] are [None].
    - A timestamp ([NOW()]) is an integer number of microseconds.  A
      reading of [time.time()] is a float, kept as the rational number it
      is; what float arithmetic makes of [(time.time() - start) * 1000]
      is read from the environment of the call, like the readings of the
      two clocks and the value of [uuid.uuid4()] (see [Env]).
    - A statement of the recorder raises [DataError] when a value does
      not fit the type of its column ([VARCHAR(n)], [INT],
      [DECIMAL(10,2)]); such a statement changes no row.
    - [print] and [logger] calls append an [Event] to the output of the
      run; an uncaught Python exception ends the run with [Raised].
    - Rational results (a percentage, an average) are exact rationals.
    - The tracer is connected and [setup] has run on an empty schema; the
      database answers every statement (no connection loss). *)

From Stdlib Require Import QArith Qround Qcanon Lqa.
From stdpp Require Import gmap strings list fin_maps sorting numbers.

Local Open Scope Z_scope.

(** ** Data model *)

(** A row of table [traces]; the key [trace_id] is the key of the map. *)
Module Trace.
Record t := mk {
  service_name : string;
  operation_name : string;
  start_time : Z;
  end_time : option Z;
  duration_ms : option Z;
  status : string;
  metadata : option string
}.
End Trace.

(** A row of table [spans]; the key [span_id] is the key of the map. *)
Module Span.
Record t := mk {
  trace_id : string;
  parent_span_id : option string;
  service_name : string;
  operation_name : string;
  start_time : Z;
  end_time : option Z;
  duration_ms : option Z;
  db_query : option string;
  rows_affected : option Z;
  status : string
}.
End Span.

(** A value of the dict [active_traces]. *)
Module Active.
Record t := mk {
  service : string;
  operation : string;
  start_time : Q   (* the reading of time.time() at start_trace *)
}.
End Active.

Record Database := mkDatabase {
  traces : gmap string Trace.t;
  spans : gmap string Span.t
}.

Record DistributedTracer := mkTracer {
  conn : Database;
  active_traces : gmap string Active.t
}.

(** What a call reads from its environment: the value of
    [str(uuid.uuid4())], the readings of the two clocks, and the results
    of float arithmetic.  [time.time()] returns a float, a number of
    seconds; [end_trace] subtracts the recorded start from it and
    multiplies by 1000, in floats.  That float reaches the database as a
    literal that [DECIMAL(10,2)] rounds ([elapsed_ms], in hundredths of a
    millisecond, before the range of the column is checked) and reaches
    the log through the format [.2f] ([elapsed_log]); both are given as
    functions of the recorded start. *)
Record Env := mkEnv {
  uuid4 : string;
  time : Q;               (* time.time(), seconds *)
  now : Z;                (* NOW() of the database, microseconds *)
  elapsed_ms : Q → Z;     (* (time.time() - start) * 1000, as stored *)
  elapsed_log : Q → Z     (* (time.time() - start) * 1000, as logged *)
}.


(** A rational to the nearest integer, half away from zero. *)
Definition round_half_away (q : Q) : Z :=
  if Qle_bool 0 q then Qfloor (q + (1 # 2)) else - Qfloor (- q + (1 # 2)).

(** The environment of a call at given readings of the two clocks, both
    in microseconds, in which the float arithmetic is exact. *)
Definition env_at (uuid4 : string) (time_us now_us : Z) : Env :=
  let time := (time_us # 1000000)%Q in
  let elapsed := λ start : Q, round_half_away (100000 * (time - start)) in
  mkEnv uuid4 time now_us elapsed elapsed.

(** The state of a fresh tracer on an empty database. *)
Definition init : DistributedTracer :=
  mkTracer (mkDatabase ∅ ∅) ∅.

(** ** Exceptions, output and the monad of a call *)

Inductive PyExn :=
  | TypeError        (* None under a numeric format spec or comparison *)
  | ValueError       (* max() arg is an empty sequence *)
  | IntegrityError   (* primary or foreign key violated by an INSERT *)
  | DataError.       (* a value too long or out of range for its column *)

Inductive Result (A : Type) :=
  | Returned (a : A)
  | Raised (e : PyExn).
Arguments Returned {A} a.
Arguments Raised {A} e.

Inductive Event :=
  (* logger *)
  | Log_started (trace_id8 service operation : string)
  | Log_not_found (trace_id : string)
  | Log_ended (trace_id8 : string) (duration : Z)
  (* analyze_trace *)
  | Out_trace_not_found
  | Out_banner (title : string)
  | Out_rule
  | Out_trace_id (trace_id : string)
  | Out_operation (service operation : string)
  | Out_total_duration (duration : Z)
  | Out_status (status : string)
  | Out_span_count (n : nat)
  | Out_span_service (indent : nat) (service : string)
  | Out_span_operation (indent : nat) (operation : string)
  | Out_span_duration (indent : nat) (duration : Z)
  | Out_span_query (indent : nat) (query60 : string)
  | Out_span_rows (indent : nat) (rows : option Z)
  | Out_span_status (indent : nat) (status : string)
  | Out_db_time (total_db_time : Z) (db_percentage : Qc)
  | Out_non_db_time (non_db_time : Z) (non_db_percentage : Qc)
  | Out_slowest_header
  | Out_slowest_service (service : string)
  | Out_slowest_operation (operation : string)
  | Out_slowest_duration (duration : Z)
  (* get_service_performance *)
  | Out_service (service : string)
  | Out_service_count (n : Z)
  | Out_service_avg (avg : Qc)
  | Out_service_max (d : Z)
  | Out_service_min (d : Z).

Record Run (A : Type) := mkRun {
  output : list Event;
  outcome : Result A;
  self_after : DistributedTracer
}.
Arguments mkRun {A} _ _ _.
Arguments output {A} _.
Arguments outcome {A} _.
Arguments self_after {A} _.

Definition Py (A : Type) : Type := DistributedTracer → Run A.

Definition py_ret {A} (a : A) : Py A := λ self, mkRun [] (Returned a) self.

(** The run [r] after [out] has been printed. *)
Definition prepend {A} (out : list Event) (r : Run A) : Run A :=
  match r with
  | mkRun out' res self => mkRun (out ++ out') res self
  end.

Definition py_bind {A B} (m : Py A) (k : A → Py B) : Py B := λ self,
  match m self with
  | mkRun out (Returned a) self' => prepend out (k a self')
  | mkRun out (Raised e) self' => mkRun out (Raised e) self'
  end.

#[global] Instance Py_ret : MRet Py := @py_ret.
#[global] Instance Py_bind : MBind Py := λ A B k m, py_bind m k.

Definition raise {A} (e : PyExn) : Py A := λ self, mkRun [] (Raised e) self.
Definition emit (e : Event) : Py unit := λ self, mkRun [e] (Returned tt) self.
Definition get_self : Py DistributedTracer := λ self, mkRun [] (Returned self) self.
Definition put_self (s : DistributedTracer) : Py unit := λ _, mkRun [] (Returned tt) s.

(** [f"{x:.2f}"]: a number is formatted, [None] raises [TypeError]. *)
Definition fmt {A} (x : option A) : Py A :=
  match x with
  | Some v => mret v
  | None => raise TypeError
  end.

(** ** Time and SQL helpers *)

(** A difference of microseconds as a [DECIMAL(10,2)] number of
    milliseconds: hundredths, rounded half away from zero. *)
Definition to_ms (us : Z) : Z :=
  if 0 <=? us then (us + 5) / 10 else - ((- us + 5) / 10).

(** *** Characters

    A character of a UTF-8 string starts at every byte that is not a
    continuation byte [10xxxxxx]. *)
Definition is_continuation (c : Ascii.ascii) : bool :=
  match c with Ascii.Ascii _ _ _ _ _ _ b6 b7 => b7 && negb b6 end.

(** [len(s)], and [char_length(s)] of PostgreSQL *)
Fixpoint char_length (s : string) : nat :=
  match s with
  | EmptyString => 0
  | String c s' =>
      if is_continuation c then char_length s' else S (char_length s')
  end.

(** [s[:n]] *)
Fixpoint prefix (n : nat) (s : string) : string :=
  match s with
  | EmptyString => EmptyString
  | String c s' =>
      if is_continuation c then String c (prefix n s')
      else match n with
           | O => EmptyString
           | S n' => String c (prefix n' s')
           end
  end.

(** [s[n:]] *)
Fixpoint drop_chars (n : nat) (s : string) : string :=
  match s with
  | EmptyString => EmptyString
  | String c s' =>
      if is_continuation c then drop_chars n s'
      else match n with
           | O => s
           | S n' => drop_chars n' s'
           end
  end.

(** A string that does not start inside a character. *)
Definition starts_at_character (s : string) : bool :=
  match s with
  | EmptyString => true
  | String c _ => negb (is_continuation c)
  end.

Fixpoint all_spaces (s : string) : bool :=
  match s with
  | EmptyString => true
  | String c s' => Ascii.eqb c Ascii.Space && all_spaces s'
  end.

(** *** Columns

    The value a column of the schema of [setup] takes for a value it is
    given, or [None] when the statement raises. *)

(** [VARCHAR(n)]: a string of more than [n] characters is an error,
    unless the characters in excess are all spaces; it is then cut to [n]
    characters. *)
Definition to_varchar (n : nat) (s : string) : option string :=
  if (char_length s <=? n)%nat then Some s
  else if all_spaces (drop_chars n s) then Some (prefix n s)
  else None.

(** A nullable [VARCHAR(n)] column given an [Optional[str]]. *)
Definition to_varchar_null (n : nat) (s : option string)
  : option (option string) :=
  match s with
  | None => Some None
  | Some s => Some <$> to_varchar n s
  end.

(** [VARCHAR(36)] given [str(uuid.uuid4())], which has 36 characters:
    no id is cut. *)
Definition id_fits (id : string) : bool := (char_length id <=? 36)%nat.

(** [DECIMAL(10,2)]: at most eight digits before the decimal point. *)
Definition fits_decimal (hundredths : Z) : bool :=
  Z.abs hundredths <? 10000000000.

(** [INT] *)
Definition fits_int (n : Z) : bool :=
  (-2147483648 <=? n) && (n <=? 2147483647).

#[global] Arguments to_varchar : simpl never.
#[global] Arguments to_varchar_null : simpl never.
#[global] Arguments id_fits : simpl never.
#[global] Arguments fits_decimal : simpl never.
#[global] Arguments fits_int : simpl never.

(** ** Trace Recorder *)

(** The [INSERT] raises [DataError] for a value that does not fit its
    column and [IntegrityError] for a [trace_id] that has a row; then the
    lines after it do not run. *)
Definition start_trace (env : Env) (service_name operation_name : string)
  : Py string :=
  let trace_id := uuid4 env in
  self ← get_self;
  if negb (id_fits trace_id) then raise DataError else
  match to_varchar 100 service_name, to_varchar 100 operation_name with
  | Some service, Some operation =>
      match traces (conn self) !! trace_id with
      | Some _ => raise IntegrityError
      | None =>
          let row := Trace.mk service operation (now env)
                       None None "in_progress" None in
          put_self (mkTracer
            (mkDatabase (<[trace_id := row]> (traces (conn self)))
                        (spans (conn self)))
            (<[trace_id := Active.mk service_name operation_name (time env)]>
               (active_traces self)));;
          emit (Log_started (prefix 8 trace_id) service_name operation_name);;
          mret trace_id
      end
  | _, _ => raise DataError
  end.

(** [UPDATE traces SET end_time = NOW(), duration_ms = .., status = ..] *)
Definition close_trace (end_time duration : Z) (status : string)
  (r : Trace.t) : Trace.t :=
  Trace.mk (Trace.service_name r) (Trace.operation_name r)
    (Trace.start_time r) (Some end_time) (Some duration) status
    (Trace.metadata r).

(** The [UPDATE] raises [DataError] for a duration or a status that does
    not fit its column; then [del self.active_traces[trace_id]] and the
    log line do not run. *)
Definition end_trace (env : Env) (trace_id : string) (status : string)
  : Py unit :=
  self ← get_self;
  match active_traces self !! trace_id with
  | None => emit (Log_not_found trace_id)
  | Some trace_info =>
      let duration := elapsed_ms env (Active.start_time trace_info) in
      match to_varchar 20 status with
      | Some status =>
          if fits_decimal duration then
            put_self (mkTracer
              (mkDatabase
                 (alter (close_trace (now env) duration status) trace_id
                    (traces (conn self)))
                 (spans (conn self)))
              (delete trace_id (active_traces self)));;
            emit (Log_ended (prefix 8 trace_id)
                    (elapsed_log env (Active.start_time trace_info)))
          else raise DataError
      | None => raise DataError
      end
  end.

(** The [INSERT] raises [DataError] for a value that does not fit its
    column and [IntegrityError] for a [trace_id] without a row in
    [traces] or a [span_id] that has a row. *)
Definition create_span (env : Env) (trace_id service_name operation_name : string)
  (parent_span_id : option string) : Py string :=
  let span_id := uuid4 env in
  self ← get_self;
  if negb (id_fits span_id) then raise DataError else
  match to_varchar 36 trace_id, to_varchar_null 36 parent_span_id,
        to_varchar 100 service_name, to_varchar 100 operation_name with
  | Some trace, Some parent, Some service, Some operation =>
      match traces (conn self) !! trace, spans (conn self) !! span_id with
      | Some _, None =>
          let row := Span.mk trace parent service operation
                       (now env) None None None None "in_progress" in
          put_self (mkTracer
            (mkDatabase (traces (conn self))
                        (<[span_id := row]> (spans (conn self))))
            (active_traces self));;
          mret span_id
      | _, _ => raise IntegrityError
      end
  | _, _, _, _ => raise DataError
  end.

(** [UPDATE spans SET end_time = NOW(), duration_ms = EXTRACT(EPOCH FROM
    (NOW() - start_time)) * 1000, db_query = .., rows_affected = ..,
    status = ..] *)
Definition close_span (now : Z) (query : option string) (rows_affected : Z)
  (status : string) (r : Span.t) : Span.t :=
  Span.mk (Span.trace_id r) (Span.parent_span_id r) (Span.service_name r)
    (Span.operation_name r) (Span.start_time r) (Some now)
    (Some (to_ms (now - Span.start_time r))) query (Some rows_affected) status.

(** The [UPDATE] raises [DataError] for a status or an affected count
    that does not fit its column, whether or not a row has the id (the
    two are constants of the statement), and for a duration that does not
    fit, which is computed for the row that has the id. *)
Definition end_span (env : Env) (span_id : string) (query : option string)
  (rows_affected : Z) (status : string) : Py unit :=
  self ← get_self;
  match to_varchar 20 status with
  | Some status =>
      if fits_int rows_affected then
        match spans (conn self) !! span_id with
        | None => mret tt
        | Some r =>
            if fits_decimal (to_ms (now env - Span.start_time r)) then
              put_self (mkTracer
                (mkDatabase (traces (conn self))
                   (alter (close_span (now env) query rows_affected status)
                      span_id (spans (conn self))))
                (active_traces self))
            else raise DataError
        end
      else raise DataError
  | None => raise DataError
  end.

(** ** Trace Analyzer *)

(** A tuple of the second query of [analyze_trace]:
    [SELECT span_id, parent_span_id, service_name, operation_name,
            duration_ms, db_query, rows_affected, status]. *)
Module SpanRow.
Record t := mk {
  span_id : string;
  parent_span_id : option string;
  service_name : string;
  operation_name : string;
  duration_ms : option Z;
  db_query : option string;
  rows_affected : option Z;
  status : string
}.
End SpanRow.

Definition select_row (kv : string * Span.t) : SpanRow.t :=
  SpanRow.mk kv.1 (Span.parent_span_id kv.2) (Span.service_name kv.2)
    (Span.operation_name kv.2) (Span.duration_ms kv.2) (Span.db_query kv.2)
    (Span.rows_affected kv.2) (Span.status kv.2).

(** [FROM spans WHERE trace_id = %s] *)
Definition spans_of_trace (db : Database) (trace_id : string)
  : list (string * Span.t) :=
  filter (λ kv, Span.trace_id kv.2 = trace_id) (map_to_list (spans db)).

(** [ORDER BY start_time] *)
Definition by_start_time (a b : string * Span.t) : Prop :=
  Span.start_time a.2 ≤ Span.start_time b.2.

#[global] Instance by_start_time_dec a b : Decision (by_start_time a b).
Proof. unfold by_start_time. apply _. Defined.

(** The database may answer the query with any listing of the spans of
    the trace that ascends in [start_time]; SQL fixes no order among
    spans of equal [start_time]. *)
Definition fetch_spans (db : Database) (trace_id : string)
  (recs : list (string * Span.t)) : Prop :=
  recs ≡ₚ spans_of_trace db trace_id ∧ Sorted by_start_time recs.

#[global] Instance Span_eq_dec : EqDecision Span.t.
Proof. solve_decision. Defined.

#[global] Instance fetch_spans_dec db trace_id recs :
  Decision (fetch_spans db trace_id recs).
Proof. unfold fetch_spans. apply _. Defined.

(** One such answer. *)
Definition fetch_spans_sorted (db : Database) (trace_id : string)
  : list (string * Span.t) :=
  merge_sort by_start_time (spans_of_trace db trace_id).

(** Python truth value of an optional string: [None] and [""] are false. *)
Definition truthy (s : option string) : bool :=
  match s with
  | Some (String _ _) => true
  | _ => false
  end.

Definition indent_of (parent_id : option string) : nat :=
  if truthy parent_id then 4%nat else 2%nat.

(** The body of [for span in spans], with the accumulator
    [total_db_time]. *)
Fixpoint span_loop (spans : list SpanRow.t) (total_db_time : Z) : Py Z :=
  match spans with
  | [] => mret total_db_time
  | span :: rest =>
      let indent := indent_of (SpanRow.parent_span_id span) in
      emit (Out_span_service indent (SpanRow.service_name span));;
      emit (Out_span_operation indent (SpanRow.operation_name span));;
      dur ← fmt (SpanRow.duration_ms span);
      emit (Out_span_duration indent dur);;
      total ← (if truthy (SpanRow.db_query span) then
                 emit (Out_span_query indent
                         (prefix 60 (default "" (SpanRow.db_query span))));;
                 emit (Out_span_rows indent (SpanRow.rows_affected span));;
                 dur ← fmt (SpanRow.duration_ms span);
                 mret (total_db_time + dur)
               else mret total_db_time);
      emit (Out_span_status indent (SpanRow.status span));;
      span_loop rest total
  end.

(** [max(spans, key=lambda x: x[4])]: the first item whose key no later
    item exceeds; comparing a [None] key raises [TypeError], an empty
    sequence raises [ValueError]. *)
Fixpoint max_loop (best : SpanRow.t) (rest : list SpanRow.t) : Py SpanRow.t :=
  match rest with
  | [] => mret best
  | x :: rest' =>
      kx ← fmt (SpanRow.duration_ms x);
      kb ← fmt (SpanRow.duration_ms best);
      max_loop (if kb <? kx then x else best) rest'
  end.

Definition py_max (spans : list SpanRow.t) : Py SpanRow.t :=
  match spans with
  | [] => raise ValueError
  | x :: rest => max_loop x rest
  end.

(** [(total_db_time / duration * 100) if duration > 0 else 0] *)
Definition db_percentage (total_db_time : Z) (duration : option Z) : Py Qc :=
  d ← fmt duration;
  mret (if 0 <? d
        then (Qc_of_Z total_db_time / Qc_of_Z d * Qc_of_Z 100)%Qc
        else Qc_of_Z 0).

(** [analyze_trace]; [fetched] is the answer of the database to the
    query for the spans of the trace. *)
Definition analyze_trace (fetched : list SpanRow.t) (trace_id : string)
  : Py unit :=
  self ← get_self;
  match traces (conn self) !! trace_id with
  | None => emit Out_trace_not_found
  | Some trace_info =>
      let service := Trace.service_name trace_info in
      let operation := Trace.operation_name trace_info in
      let duration := Trace.duration_ms trace_info in
      let status := Trace.status trace_info in
      let spans := fetched in
      emit (Out_banner "TRACE ANALYSIS");;
      emit (Out_trace_id trace_id);;
      emit (Out_operation service operation);;
      d ← fmt duration;
      emit (Out_total_duration d);;
      emit (Out_status status);;
      emit (Out_span_count (length spans));;
      total_db_time ← span_loop spans 0;
      pct ← db_percentage total_db_time duration;
      emit (Out_banner "PERFORMANCE METRICS");;
      emit (Out_db_time total_db_time pct);;
      d ← fmt duration;
      emit (Out_non_db_time (d - total_db_time) (Qc_of_Z 100 - pct)%Qc);;
      slowest_span ← py_max spans;
      emit Out_slowest_header;;
      emit (Out_slowest_service (SpanRow.service_name slowest_span));;
      emit (Out_slowest_operation (SpanRow.operation_name slowest_span));;
      d ← fmt (SpanRow.duration_ms slowest_span);
      emit (Out_slowest_duration d);;
      emit Out_rule
  end.

(** ** Service Performance Aggregator *)

(** A tuple of the query of [get_service_performance]. *)
Module ServiceRow.
Record t := mk {
  service_name : string;
  span_count : Z;
  avg_duration : option Qc;
  max_duration : option Z;
  min_duration : option Z
}.
End ServiceRow.

(** SQL aggregates over one group: the row count counts every row, [AVG],
    [MAX] and [MIN] skip [NULL] and are [NULL] when nothing is left. *)
Definition sql_count (g : list Span.t) : Z := Z.of_nat (length g).

Definition durations (g : list Span.t) : list Z :=
  omap Span.duration_ms g.

Definition sum_list_Z (ds : list Z) : Z := foldr Z.add 0 ds.

Definition sql_avg (g : list Span.t) : option Qc :=
  match durations g with
  | [] => None
  | ds => Some (Qc_of_Z (sum_list_Z ds) / Qc_of_Z (Z.of_nat (length ds)))%Qc
  end.

Definition sql_max (g : list Span.t) : option Z :=
  match durations g with
  | [] => None
  | d :: ds => Some (foldr Z.max d ds)
  end.

Definition sql_min (g : list Span.t) : option Z :=
  match durations g with
  | [] => None
  | d :: ds => Some (foldr Z.min d ds)
  end.

(** [FROM spans]: the whole span population. *)
Definition all_spans (db : Database) : list Span.t :=
  (map_to_list (spans db)).*2.

(** The spans of one service. *)
Definition spans_of_service (db : Database) (name : string) : list Span.t :=
  filter (λ s, Span.service_name s = name) (all_spans db).

(** [GROUP BY service_name] with the select list of the query. *)
Definition service_rows (db : Database) : list ServiceRow.t :=
  map (λ name,
         let g := spans_of_service db name in
         ServiceRow.mk name (sql_count g) (sql_avg g) (sql_max g) (sql_min g))
      (remove_dups (map Span.service_name (all_spans db))).

(** [ORDER BY avg_duration DESC]; descending order puts [NULL] first. *)
Definition avg_desc (a b : ServiceRow.t) : Prop :=
  match ServiceRow.avg_duration a, ServiceRow.avg_duration b with
  | None, _ => True
  | Some _, None => False
  | Some x, Some y => (y ≤ x)%Qc
  end.

#[global] Instance avg_desc_dec a b : Decision (avg_desc a b).
Proof.
  unfold avg_desc.
  destruct (ServiceRow.avg_duration a), (ServiceRow.avg_duration b); apply _.
Defined.

(** The database may answer with any listing of the groups that descends
    in [avg_duration]: the query names no second sort key. *)
Definition fetch_service_performance (db : Database)
  (rows : list ServiceRow.t) : Prop :=
  rows ≡ₚ service_rows db ∧ Sorted avg_desc rows.

#[global] Instance ServiceRow_eq_dec : EqDecision ServiceRow.t.
Proof. solve_decision. Defined.

#[global] Instance fetch_service_performance_dec db rows :
  Decision (fetch_service_performance db rows).
Proof. unfold fetch_service_performance. apply _. Defined.

(** One such answer. *)
Definition fetch_service_performance_sorted (db : Database)
  : list ServiceRow.t :=
  merge_sort avg_desc (service_rows db).

(** The body of [for row in cursor.fetchall()]. *)
Fixpoint service_loop (rows : list ServiceRow.t) : Py unit :=
  match rows with
  | [] => mret tt
  | row :: rest =>
      emit (Out_service (ServiceRow.service_name row));;
      emit (Out_service_count (ServiceRow.span_count row));;
      avg ← fmt (ServiceRow.avg_duration row);
      emit (Out_service_avg avg);;
      max_dur ← fmt (ServiceRow.max_duration row);
      emit (Out_service_max max_dur);;
      min_dur ← fmt (ServiceRow.min_duration row);
      emit (Out_service_min min_dur);;
      service_loop rest
  end.

(** [get_service_performance]; [fetched] is the answer of the database. *)
Definition get_service_performance (fetched : list ServiceRow.t) : Py unit :=
  emit (Out_banner "SERVICE PERFORMANCE SUMMARY");;
  service_loop fetched;;
  emit Out_rule.

(** A tie-break by service name, as the specification words it: among
    rows of equal average the service names ascend. *)
Definition ties_by_name (rows : list ServiceRow.t) : Prop :=
  ∀ (i j : nat) (a b : ServiceRow.t),
    rows !! i = Some a → rows !! j = Some b → (i < j)%nat →
    ServiceRow.avg_duration a = ServiceRow.avg_duration b →
    String.ltb (ServiceRow.service_name a) (ServiceRow.service_name b) = true.

(** ** Sequences of calls *)

Inductive Call :=
  | Start_trace (service_name operation_name : string)
  | End_trace (trace_id status : string)
  | Create_span (trace_id service_name operation_name : string)
      (parent_span_id : option string)
  | End_span (span_id : string) (query : option string) (rows_affected : Z)
      (status : string)
  | Analyze_trace (fetched : list SpanRow.t) (trace_id : string)
  | Get_service_performance (fetched : list ServiceRow.t).

Definition call (env : Env) (c : Call) : Py unit :=
  match c with
  | Start_trace s o => start_trace env s o;; mret tt
  | End_trace t st => end_trace env t st
  | Create_span t s o p => create_span env t s o p;; mret tt
  | End_span sp q n st => end_span env sp q n st
  | Analyze_trace f t => analyze_trace f t
  | Get_service_performance f => get_service_performance f
  end.

(** The state after a sequence of calls; a call that raises leaves the
    state it reached. *)
Definition exec (cs : list (Env * Call)) (self : DistributedTracer)
  : DistributedTracer :=
  foldl (λ s ec, self_after (call ec.1 ec.2 s)) self cs.

(** Neither clock runs backwards between two calls. *)
Definition clocks_ascend (cs : list (Env * Call)) : Prop :=
  StronglySorted (λ a b, (time a.1 <= time b.1)%Q ∧ now a.1 ≤ now b.1) cs.

#[global] Instance Qle_dec (a b : Q) : Decision (a <= b)%Q.
Proof.
  destruct (Qlt_le_dec b a); [right; by apply Qlt_not_le|by left].
Defined.

#[global] Instance clocks_ascend_dec cs : Decision (clocks_ascend cs).
Proof. unfold clocks_ascend. apply _. Defined.

(** The database clock does not run backwards between two calls. *)
Definition db_clock_ascends (cs : list (Env * Call)) : Prop :=
  StronglySorted (λ a b, now a.1 ≤ now b.1) cs.

#[global] Instance db_clock_ascends_dec cs : Decision (db_clock_ascends cs).
Proof. unfold db_clock_ascends. apply _. Defined.


(** ** Definitions used by the statements *)

(** A computation that leaves the tracer as it found it. *)
Definition pure {A} (m : Py A) : Prop := ∀ self, self_after (m self) = self.

(** A span is DB-attributed when its operation descriptor is non-empty. *)
Definition db_attributed (row : SpanRow.t) : bool :=
  truthy (SpanRow.db_query row).

(** The sum of the durations of the DB-attributed spans. *)
Definition db_time_of (rows : list SpanRow.t) : Z :=
  sum_list_Z (omap SpanRow.duration_ms (filter (λ r, db_attributed r = true) rows)).

(** The lines [analyze_trace] prints inside its loop. *)
Definition is_span_event (e : Event) : Prop :=
  match e with
  | Out_span_service _ _ | Out_span_operation _ _ | Out_span_duration _ _
  | Out_span_query _ _ | Out_span_rows _ _ | Out_span_status _ _ => True
  | _ => False
  end.

(** The lines before the loop and after it. *)
Definition header_lines (trace_id : string) (tr : Trace.t) (d : Z) (n : nat)
  : list Event :=
  [Out_banner "TRACE ANALYSIS"; Out_trace_id trace_id;
   Out_operation (Trace.service_name tr) (Trace.operation_name tr);
   Out_total_duration d; Out_status (Trace.status tr); Out_span_count n].

Definition percentage_of (total d : Z) : Qc :=
  if 0 <? d then (Qc_of_Z total / Qc_of_Z d * Qc_of_Z 100)%Qc else Qc_of_Z 0.

Definition metrics_lines (total d : Z) : list Event :=
  [Out_banner "PERFORMANCE METRICS";
   Out_db_time total (percentage_of total d);
   Out_non_db_time (d - total) (Qc_of_Z 100 - percentage_of total d)%Qc].

Definition slowest_lines (service operation : string) (d : Z) : list Event :=
  [Out_slowest_header; Out_slowest_service service;
   Out_slowest_operation operation; Out_slowest_duration d; Out_rule].

(** The lines of one row of the service summary, for a row without NULL. *)
Definition service_lines (row : ServiceRow.t) : list Event :=
  [Out_service (ServiceRow.service_name row);
   Out_service_count (ServiceRow.span_count row);
   Out_service_avg (default (Qc_of_Z 0) (ServiceRow.avg_duration row));
   Out_service_max (default 0 (ServiceRow.max_duration row));
   Out_service_min (default 0 (ServiceRow.min_duration row))].


(** The timestamps of the traces at a reading [clk] of the database
    clock: no trace starts after [clk], and none ends before it starts. *)
Definition traces_timed (clk : Z) (self : DistributedTracer) : Prop :=
  ∀ tid r, traces (conn self) !! tid = Some r →
    Trace.start_time r ≤ clk ∧
    ∀ e, Trace.end_time r = Some e → Trace.start_time r ≤ e.

(** ** Definitions used by the further properties *)

(** The lines the loop of [analyze_trace] prints for one span that has a
    duration: service, operation and duration, the query (its first 60
    characters) and the affected rows when the span is DB-attributed, and
    the status; all at the indent of the span. *)
Definition span_lines (row : SpanRow.t) : list Event :=
  let indent := indent_of (SpanRow.parent_span_id row) in
  [Out_span_service indent (SpanRow.service_name row);
   Out_span_operation indent (SpanRow.operation_name row);
   Out_span_duration indent (default 0 (SpanRow.duration_ms row))] ++
  (if db_attributed row
   then [Out_span_query indent (prefix 60 (default "" (SpanRow.db_query row)));
         Out_span_rows indent (SpanRow.rows_affected row)]
   else []) ++
  [Out_span_status indent (SpanRow.status row)].

(** The shape of the rows that the recorder keeps, whatever the clocks do:
    an open trace has an [in_progress] row without end and duration; no
    row of [traces] has metadata; a span references a row of [traces]; a
    span without end has no duration, descriptor or affected count and is
    [in_progress]; a span with an end has the duration between its start
    and that end, and an affected count. *)
Definition well_formed (self : DistributedTracer) : Prop :=
  (∀ tid, is_Some (active_traces self !! tid) →
     ∃ r, traces (conn self) !! tid = Some r ∧
          Trace.status r = "in_progress" ∧
          Trace.end_time r = None ∧ Trace.duration_ms r = None) ∧
  (∀ tid r, traces (conn self) !! tid = Some r → Trace.metadata r = None) ∧
  (∀ sid s, spans (conn self) !! sid = Some s →
     is_Some (traces (conn self) !! Span.trace_id s) ∧
     match Span.end_time s with
     | None =>
         Span.duration_ms s = None ∧ Span.db_query s = None ∧
         Span.rows_affected s = None ∧ Span.status s = "in_progress"
     | Some e =>
         Span.duration_ms s = Some (to_ms (e - Span.start_time s)) ∧
         is_Some (Span.rows_affected s)
     end).

(** The timestamps of the spans at a reading [clk] of the database clock:
    no span starts or ends after [clk], and none ends before it starts. *)
Definition spans_timed (clk : Z) (self : DistributedTracer) : Prop :=
  ∀ sid s, spans (conn self) !! sid = Some s →
    Span.start_time s ≤ clk ∧
    ∀ e, Span.end_time s = Some e → Span.start_time s ≤ e ∧ e ≤ clk.

(** A later version of a row of [traces]: the columns written at creation
    are the same, and an end or a duration that was set is still set. *)
Definition trace_evolves (r r' : Trace.t) : Prop :=
  Trace.service_name r' = Trace.service_name r ∧
  Trace.operation_name r' = Trace.operation_name r ∧
  Trace.start_time r' = Trace.start_time r ∧
  Trace.metadata r' = Trace.metadata r ∧
  (is_Some (Trace.end_time r) → is_Some (Trace.end_time r')) ∧
  (is_Some (Trace.duration_ms r) → is_Some (Trace.duration_ms r')).

(** A later version of a row of [spans]. *)
Definition span_evolves (s s' : Span.t) : Prop :=
  Span.trace_id s' = Span.trace_id s ∧
  Span.parent_span_id s' = Span.parent_span_id s ∧
  Span.service_name s' = Span.service_name s ∧
  Span.operation_name s' = Span.operation_name s ∧
  Span.start_time s' = Span.start_time s ∧
  (is_Some (Span.end_time s) → is_Some (Span.end_time s')) ∧
  (is_Some (Span.duration_ms s) → is_Some (Span.duration_ms s')).

(** The rows whose values fit the columns of the schema of [setup]. *)
Definition trace_fits (trace_id : string) (r : Trace.t) : Prop :=
  (char_length trace_id ≤ 36)%nat ∧
  (char_length (Trace.service_name r) ≤ 100)%nat ∧
  (char_length (Trace.operation_name r) ≤ 100)%nat ∧
  (char_length (Trace.status r) ≤ 20)%nat ∧
  (∀ d, Trace.duration_ms r = Some d → -10000000000 < d < 10000000000).

Definition span_fits (span_id : string) (s : Span.t) : Prop :=
  (char_length span_id ≤ 36)%nat ∧
  (char_length (Span.trace_id s) ≤ 36)%nat ∧
  (∀ p, Span.parent_span_id s = Some p → (char_length p ≤ 36)%nat) ∧
  (char_length (Span.service_name s) ≤ 100)%nat ∧
  (char_length (Span.operation_name s) ≤ 100)%nat ∧
  (char_length (Span.status s) ≤ 20)%nat ∧
  (∀ d, Span.duration_ms s = Some d → -10000000000 < d < 10000000000) ∧
  (∀ n, Span.rows_affected s = Some n → -2147483648 ≤ n ≤ 2147483647).

Definition columns_fit (self : DistributedTracer) : Prop :=
  (∀ tid r, traces (conn self) !! tid = Some r → trace_fits tid r) ∧
  (∀ sid s, spans (conn self) !! sid = Some s → span_fits sid s).

(** A trace that is not open has an end and a duration. *)
Definition closed_traces_have_duration (self : DistributedTracer) : Prop :=
  ∀ tid r, traces (conn self) !! tid = Some r →
    active_traces self !! tid = None →
    is_Some (Trace.end_time r) ∧ is_Some (Trace.duration_ms r).

(** ** The monad *)

Ltac run_py :=
  unfold mbind, Py_bind, py_bind, mret, Py_ret, py_ret,
    emit, get_self, put_self, raise; simpl.

Lemma bind_returned {A B} (m : Py A) (k : A → Py B) self out a self' :
  m self = mkRun out (Returned a) self' →
  (m ≫= k) self = prepend out (k a self').
Proof. intros H. run_py. by rewrite H. Qed.

Lemma bind_raised {A B} (m : Py A) (k : A → Py B) self out e self' :
  m self = mkRun out (Raised e) self' →
  (m ≫= k) self = mkRun out (Raised e) self'.
Proof. intros H. run_py. by rewrite H. Qed.

Lemma self_after_prepend {A} out (r : Run A) :
  self_after (prepend out r) = self_after r.
Proof. by destruct r. Qed.

Lemma pure_ret {A} (a : A) : pure (mret a : Py A).
Proof. by intros self. Qed.

Lemma pure_emit e : pure (emit e).
Proof. by intros self. Qed.

Lemma pure_raise {A} e : pure (raise e : Py A).
Proof. by intros self. Qed.

Lemma pure_fmt {A} (x : option A) : pure (fmt x).
Proof. by destruct x; intros self. Qed.

Lemma pure_bind {A B} (m : Py A) (k : A → Py B) :
  pure m → (∀ a, pure (k a)) → pure (m ≫= k).
Proof.
  intros Hm Hk self. run_py. specialize (Hm self).
  destruct (m self) as [out [a|e] self']; simpl in *; [|done].
  rewrite self_after_prepend. subst self'. apply Hk.
Qed.

Create HintDb pure_db.
#[local] Hint Resolve pure_ret pure_emit pure_raise pure_fmt : pure_db.
#[local] Hint Extern 2 (pure (_ ≫= _)) => apply pure_bind; [|intros] : pure_db.
#[local] Hint Extern 2 (pure (if ?b then _ else _)) => destruct b : pure_db.

Lemma tracer_eta self :
  mkTracer (mkDatabase (traces (conn self)) (spans (conn self)))
    (active_traces self) = self.
Proof. by destruct self as [[??]?]. Qed.

(** ** Columns and float arithmetic *)

Lemma to_varchar_fits n s :
  (char_length s ≤ n)%nat → to_varchar n s = Some s.
Proof.
  intros H. unfold to_varchar. by rewrite (proj2 (Nat.leb_le _ _) H).
Qed.

Lemma to_varchar_length n s c :
  to_varchar n s = Some c → (char_length s ≤ n)%nat ∨ c = prefix n s.
Proof.
  unfold to_varchar. destruct (Nat.leb_spec (char_length s) n); [by left|].
  destruct (all_spaces _); [|done]. intros [= <-]. by right.
Qed.




Lemma to_ms_nonneg us : 0 ≤ us → 0 ≤ to_ms us.
Proof.
  intros H. unfold to_ms.
  destruct (Z.leb_spec 0 us); [|lia].
  apply Z.div_pos; lia.
Qed.

(** ** Trace Recorder: the runs of [end_trace] *)

Lemma end_trace_absent env trace_id status self :
  active_traces self !! trace_id = None →
  end_trace env trace_id status self =
  mkRun [Log_not_found trace_id] (Returned tt) self.
Proof. intros H. unfold end_trace. run_py. by rewrite H. Qed.

Lemma end_trace_present env trace_id status self info st :
  active_traces self !! trace_id = Some info →
  to_varchar 20 status = Some st →
  fits_decimal (elapsed_ms env (Active.start_time info)) = true →
  end_trace env trace_id status self =
  mkRun [Log_ended (prefix 8 trace_id)
           (elapsed_log env (Active.start_time info))]
    (Returned tt)
    (mkTracer
       (mkDatabase
          (alter (close_trace (now env)
                    (elapsed_ms env (Active.start_time info)) st)
             trace_id (traces (conn self)))
          (spans (conn self)))
       (delete trace_id (active_traces self))).
Proof.
  intros H Hst Hd. unfold end_trace. run_py. by rewrite H, Hst, Hd.
Qed.

Lemma end_trace_overflow env trace_id status self info :
  active_traces self !! trace_id = Some info →
  to_varchar 20 status = None ∨
  fits_decimal (elapsed_ms env (Active.start_time info)) = false →
  end_trace env trace_id status self = mkRun [] (Raised DataError) self.
Proof.
  intros H Hbad. unfold end_trace. run_py. rewrite H.
  destruct (to_varchar 20 status); [|done].
  by destruct Hbad as [?| ->].
Qed.

(** The three runs of [end_trace]. *)
Lemma end_trace_cases env trace_id status self :
  (active_traces self !! trace_id = None ∧
   end_trace env trace_id status self =
   mkRun [Log_not_found trace_id] (Returned tt) self) ∨
  (is_Some (active_traces self !! trace_id) ∧
   end_trace env trace_id status self = mkRun [] (Raised DataError) self) ∨
  (∃ info st,
     active_traces self !! trace_id = Some info ∧
     to_varchar 20 status = Some st ∧
     fits_decimal (elapsed_ms env (Active.start_time info)) = true ∧
     end_trace env trace_id status self =
     mkRun [Log_ended (prefix 8 trace_id)
              (elapsed_log env (Active.start_time info))]
       (Returned tt)
       (mkTracer
          (mkDatabase
             (alter (close_trace (now env)
                       (elapsed_ms env (Active.start_time info)) st)
                trace_id (traces (conn self)))
             (spans (conn self)))
          (delete trace_id (active_traces self)))).
Proof.
  destruct (active_traces self !! trace_id) as [info|] eqn:E.
  - right.
    destruct (to_varchar 20 status) as [st|] eqn:Hst.
    + destruct (fits_decimal (elapsed_ms env (Active.start_time info)))
        eqn:Hd.
      * right. exists info, st. by rewrite (end_trace_present _ _ _ _ _ _ E Hst Hd).
      * left. split; [done|]. apply (end_trace_overflow _ _ _ _ _ E). by right.
    + left. split; [done|]. apply (end_trace_overflow _ _ _ _ _ E). by left.
  - left. split; [done|]. by apply end_trace_absent.
Qed.

(** C5. For a [trace_id] that is not in [active_traces], [end_trace] logs
    the not-found warning, returns, and leaves the tracer (both tables and
    [active_traces]) as it was; and once an [end_trace] on an id has
    returned, that id has been ended or was not open, and a second
    [end_trace] on it is this no-op. *)
Theorem end_trace_unknown_is_noop env trace_id status self :
  (active_traces self !! trace_id = None →
   end_trace env trace_id status self =
   mkRun [Log_not_found trace_id] (Returned tt) self) ∧
  (outcome (end_trace env trace_id status self) = Returned tt →
   ∀ env' status',
     let ended := self_after (end_trace env trace_id status self) in
     end_trace env' trace_id status' ended =
     mkRun [Log_not_found trace_id] (Returned tt) ended).
Proof.
  split.
  - apply end_trace_absent.
  - intros Hret env' status' ended. subst ended. apply end_trace_absent.
    destruct (end_trace_cases env trace_id status self)
      as [[Habs Hrun]|[[_ Hrun]|(info & st & _ & _ & _ & Hrun)]];
      rewrite Hrun in Hret |- *; simpl.
    + done.
    + discriminate.
    + apply lookup_delete_eq.
Qed.

Lemma end_trace_unknown_is_noop_witness :
  end_trace (env_at "" 7 7) "no-such-trace" "success" init =
    mkRun [Log_not_found "no-such-trace"] (Returned tt) init ∧
  let self := exec [(env_at "t1" 0 0, Start_trace "api-gateway" "create_order")]
                   init in
  let ended := self_after (end_trace (env_at "" 50 50) "t1" "success" self) in
  end_trace (env_at "" 90 90) "t1" "error" ended =
    mkRun [Log_not_found "t1"] (Returned tt) ended.
Proof.
  split.
  - apply (proj1 (end_trace_unknown_is_noop (env_at "" 7 7) "no-such-trace"
                    "success" init)).
    reflexivity.
  - intros self.
    apply (proj2 (end_trace_unknown_is_noop (env_at "" 50 50) "t1"
                    "success" self)).
    vm_compute. reflexivity.
Defined.

(** ** Trace Recorder: the runs of [end_span] *)

Lemma end_span_too_long env span_id query rows_affected status self :
  to_varchar 20 status = None ∨ fits_int rows_affected = false →
  end_span env span_id query rows_affected status self =
  mkRun [] (Raised DataError) self.
Proof.
  intros Hbad. unfold end_span. run_py.
  destruct (to_varchar 20 status); [|done].
  by destruct Hbad as [?| ->].
Qed.

Lemma end_span_absent env span_id query rows_affected status self :
  is_Some (to_varchar 20 status) → fits_int rows_affected = true →
  spans (conn self) !! span_id = None →
  end_span env span_id query rows_affected status self =
  mkRun [] (Returned tt) self.
Proof.
  intros [st Hst] Hn H. unfold end_span. run_py. by rewrite Hst, Hn, H.
Qed.

Lemma end_span_present env span_id query rows_affected status self st s :
  to_varchar 20 status = Some st → fits_int rows_affected = true →
  spans (conn self) !! span_id = Some s →
  fits_decimal (to_ms (now env - Span.start_time s)) = true →
  end_span env span_id query rows_affected status self =
  mkRun [] (Returned tt)
    (mkTracer
       (mkDatabase (traces (conn self))
          (alter (close_span (now env) query rows_affected st) span_id
             (spans (conn self))))
       (active_traces self)).
Proof.
  intros Hst Hn H Hd. unfold end_span. run_py. by rewrite Hst, Hn, H, Hd.
Qed.

Lemma end_span_overflow env span_id query rows_affected status self s :
  spans (conn self) !! span_id = Some s →
  fits_decimal (to_ms (now env - Span.start_time s)) = false →
  end_span env span_id query rows_affected status self =
  mkRun [] (Raised DataError) self.
Proof.
  intros H Hd. unfold end_span. run_py.
  destruct (to_varchar 20 status); [|done].
  destruct (fits_int rows_affected); [|done].
  by rewrite H, Hd.
Qed.

(** The runs of [end_span]: it leaves the tracer as it was, or it has
    written the row of the span. *)
Lemma end_span_cases env span_id query rows_affected status self :
  (∃ res, end_span env span_id query rows_affected status self =
          mkRun [] res self) ∨
  (∃ st s,
     to_varchar 20 status = Some st ∧
     spans (conn self) !! span_id = Some s ∧
     end_span env span_id query rows_affected status self =
     mkRun [] (Returned tt)
       (mkTracer
          (mkDatabase (traces (conn self))
             (alter (close_span (now env) query rows_affected st) span_id
                (spans (conn self))))
          (active_traces self))).
Proof.
  destruct (to_varchar 20 status) as [st|] eqn:Hst.
  2:{ left. eexists. apply end_span_too_long. by left. }
  destruct (fits_int rows_affected) eqn:Hn.
  2:{ left. eexists. apply end_span_too_long. by right. }
  destruct (spans (conn self) !! span_id) as [s|] eqn:E.
  2:{ left. eexists. by apply end_span_absent. }
  destruct (fits_decimal (to_ms (now env - Span.start_time s))) eqn:Hd.
  - right. exists st, s. by rewrite (end_span_present _ _ _ _ _ _ st s).
  - left. eexists. by apply (end_span_overflow _ _ _ _ _ _ s).
Qed.





(** ** Trace Recorder: the runs of [start_trace] and [create_span] *)

Lemma start_trace_too_long env service_name operation_name self :
  id_fits (uuid4 env) = false ∨ to_varchar 100 service_name = None ∨
  to_varchar 100 operation_name = None →
  start_trace env service_name operation_name self =
  mkRun [] (Raised DataError) self.
Proof.
  intros Hbad. unfold start_trace. run_py.
  destruct (id_fits (uuid4 env)); simpl; [|done].
  destruct (to_varchar 100 service_name); [|done].
  destruct (to_varchar 100 operation_name); [|done].
  by destruct Hbad as [?|[?|?]].
Qed.

Lemma start_trace_taken env service_name operation_name self :
  id_fits (uuid4 env) = true →
  is_Some (to_varchar 100 service_name) →
  is_Some (to_varchar 100 operation_name) →
  is_Some (traces (conn self) !! uuid4 env) →
  start_trace env service_name operation_name self =
  mkRun [] (Raised IntegrityError) self.
Proof.
  intros Hid [s Hs] [o Ho] [r H]. unfold start_trace. run_py.
  by rewrite Hid, Hs, Ho, H.
Qed.

Lemma start_trace_fresh env service_name operation_name self service operation :
  id_fits (uuid4 env) = true →
  to_varchar 100 service_name = Some service →
  to_varchar 100 operation_name = Some operation →
  traces (conn self) !! uuid4 env = None →
  start_trace env service_name operation_name self =
  mkRun [Log_started (prefix 8 (uuid4 env)) service_name operation_name]
    (Returned (uuid4 env))
    (mkTracer
       (mkDatabase
          (<[uuid4 env := Trace.mk service operation (now env)
                            None None "in_progress" None]>
             (traces (conn self)))
          (spans (conn self)))
       (<[uuid4 env := Active.mk service_name operation_name (time env)]>
          (active_traces self))).
Proof.
  intros Hid Hs Ho H. unfold start_trace. run_py. by rewrite Hid, Hs, Ho, H.
Qed.

(** The runs of [start_trace]: it raises and leaves the tracer as it was,
    or the id is new and it has inserted the row and the entry. *)
Lemma start_trace_cases env service_name operation_name self :
  (∃ e, start_trace env service_name operation_name self =
        mkRun [] (Raised e) self) ∨
  (∃ service operation,
     to_varchar 100 service_name = Some service ∧
     to_varchar 100 operation_name = Some operation ∧
     traces (conn self) !! uuid4 env = None ∧
     start_trace env service_name operation_name self =
     mkRun [Log_started (prefix 8 (uuid4 env)) service_name operation_name]
       (Returned (uuid4 env))
       (mkTracer
          (mkDatabase
             (<[uuid4 env := Trace.mk service operation (now env)
                               None None "in_progress" None]>
                (traces (conn self)))
             (spans (conn self)))
          (<[uuid4 env := Active.mk service_name operation_name (time env)]>
             (active_traces self)))).
Proof.
  destruct (id_fits (uuid4 env)) eqn:Hid.
  2:{ left. eexists. apply start_trace_too_long. by left. }
  destruct (to_varchar 100 service_name) as [service|] eqn:Hs.
  2:{ left. eexists. apply start_trace_too_long. right. by left. }
  destruct (to_varchar 100 operation_name) as [operation|] eqn:Ho.
  2:{ left. eexists. apply start_trace_too_long. right. by right. }
  destruct (traces (conn self) !! uuid4 env) as [r|] eqn:E.
  - left. eexists. apply start_trace_taken; rewrite ?Hs, ?Ho, ?E; eauto.
  - right. exists service, operation.
    by rewrite (start_trace_fresh _ _ _ _ service operation).
Qed.

Lemma create_span_too_long env trace_id service_name operation_name parent self :
  id_fits (uuid4 env) = false ∨ to_varchar 36 trace_id = None ∨
  to_varchar_null 36 parent = None ∨ to_varchar 100 service_name = None ∨
  to_varchar 100 operation_name = None →
  create_span env trace_id service_name operation_name parent self =
  mkRun [] (Raised DataError) self.
Proof.
  intros Hbad. unfold create_span. run_py.
  destruct (id_fits (uuid4 env)); simpl; [|done].
  destruct (to_varchar 36 trace_id); [|done].
  destruct (to_varchar_null 36 parent); [|done].
  destruct (to_varchar 100 service_name); [|done].
  destruct (to_varchar 100 operation_name); [|done].
  by destruct Hbad as [?|[?|[?|[?|?]]]].
Qed.

Lemma create_span_ok env trace_id service_name operation_name parent self
    trace p service operation :
  id_fits (uuid4 env) = true →
  to_varchar 36 trace_id = Some trace →
  to_varchar_null 36 parent = Some p →
  to_varchar 100 service_name = Some service →
  to_varchar 100 operation_name = Some operation →
  is_Some (traces (conn self) !! trace) →
  spans (conn self) !! uuid4 env = None →
  create_span env trace_id service_name operation_name parent self =
  mkRun [] (Returned (uuid4 env))
    (mkTracer
       (mkDatabase (traces (conn self))
          (<[uuid4 env := Span.mk trace p service operation
                             (now env) None None None None "in_progress"]>
             (spans (conn self))))
       (active_traces self)).
Proof.
  intros Hid Ht Hp Hs Ho [r Hr] Hfresh. unfold create_span. run_py.
  by rewrite Hid, Ht, Hp, Hs, Ho, Hr, Hfresh.
Qed.

Lemma create_span_fail env trace_id service_name operation_name parent self
    trace :
  id_fits (uuid4 env) = true →
  to_varchar 36 trace_id = Some trace →
  is_Some (to_varchar_null 36 parent) →
  is_Some (to_varchar 100 service_name) →
  is_Some (to_varchar 100 operation_name) →
  traces (conn self) !! trace = None ∨
  is_Some (spans (conn self) !! uuid4 env) →
  create_span env trace_id service_name operation_name parent self =
  mkRun [] (Raised IntegrityError) self.
Proof.
  intros Hid Ht [p Hp] [s Hs] [o Ho] H. unfold create_span. run_py.
  rewrite Hid, Ht, Hp, Hs, Ho. simpl.
  destruct (traces (conn self) !! trace), (spans (conn self) !! uuid4 env);
    try done; destruct H as [?|[? ?]]; done.
Qed.

(** The runs of [create_span]: it raises and leaves the tracer as it
    was, or the trace has a row, the id is new and it has inserted the
    span. *)
Lemma create_span_cases env trace_id service_name operation_name parent self :
  (∃ e, create_span env trace_id service_name operation_name parent self =
        mkRun [] (Raised e) self) ∨
  (∃ trace p service operation,
     to_varchar 36 trace_id = Some trace ∧
     to_varchar_null 36 parent = Some p ∧
     to_varchar 100 service_name = Some service ∧
     to_varchar 100 operation_name = Some operation ∧
     is_Some (traces (conn self) !! trace) ∧
     spans (conn self) !! uuid4 env = None ∧
     create_span env trace_id service_name operation_name parent self =
     mkRun [] (Returned (uuid4 env))
       (mkTracer
          (mkDatabase (traces (conn self))
             (<[uuid4 env := Span.mk trace p service operation
                                (now env) None None None None "in_progress"]>
                (spans (conn self))))
          (active_traces self))).
Proof.
  destruct (id_fits (uuid4 env)) eqn:Hid.
  2:{ left. eexists. apply create_span_too_long. by left. }
  destruct (to_varchar 36 trace_id) as [trace|] eqn:Ht.
  2:{ left. eexists. apply create_span_too_long. right. by left. }
  destruct (to_varchar_null 36 parent) as [p|] eqn:Hp.
  2:{ left. eexists. apply create_span_too_long. right. right. by left. }
  destruct (to_varchar 100 service_name) as [service|] eqn:Hs.
  2:{ left. eexists. apply create_span_too_long. do 3 right. by left. }
  destruct (to_varchar 100 operation_name) as [operation|] eqn:Ho.
  2:{ left. eexists. apply create_span_too_long. do 4 right. done. }
  destruct (traces (conn self) !! trace) as [r|] eqn:Er.
  2:{ left. eexists. apply (create_span_fail _ _ _ _ _ _ trace);
        rewrite ?Hp, ?Hs, ?Ho; eauto. }
  destruct (spans (conn self) !! uuid4 env) as [s|] eqn:Es.
  { left. eexists. apply (create_span_fail _ _ _ _ _ _ trace);
      rewrite ?Hp, ?Hs, ?Ho, ?Es; eauto. }
  right. exists trace, p, service, operation.
  rewrite (create_span_ok _ _ _ _ _ _ trace p service operation);
    rewrite ?Er; eauto 10.
Qed.

Lemma create_span_same env trace_id service_name operation_name parent self :
  let self' :=
    self_after (create_span env trace_id service_name operation_name parent self) in
  traces (conn self') = traces (conn self) ∧
  active_traces self' = active_traces self.
Proof.
  destruct (create_span_cases env trace_id service_name operation_name
              parent self) as [[e ->]|(?&?&?&?&_&_&_&_&_&_& ->)]; done.
Qed.

Lemma end_span_same env span_id query rows_affected status self :
  let self' := self_after (end_span env span_id query rows_affected status self) in
  traces (conn self') = traces (conn self) ∧
  active_traces self' = active_traces self.
Proof.
  destruct (end_span_cases env span_id query rows_affected status self)
    as [[res ->]|(?&?&_&_& ->)]; done.
Qed.

(** ** The analysis leaves the tracer as it was *)

Lemma span_loop_pure spans : ∀ total, pure (span_loop spans total).
Proof.
  induction spans as [|span rest IH]; intros total; simpl;
    eauto 20 with pure_db.
Qed.

Lemma max_loop_pure rest : ∀ best, pure (max_loop best rest).
Proof.
  induction rest as [|x rest IH]; intros best; simpl; eauto 10 with pure_db.
Qed.

Lemma py_max_pure spans : pure (py_max spans).
Proof. destruct spans; simpl; auto using max_loop_pure with pure_db. Qed.

Lemma db_percentage_pure total d : pure (db_percentage total d).
Proof. unfold db_percentage. eauto 10 with pure_db. Qed.

Lemma analyze_trace_pure fetched trace_id : pure (analyze_trace fetched trace_id).
Proof.
  intros self. unfold analyze_trace.
  rewrite (bind_returned get_self _ self [] self self) by done.
  rewrite self_after_prepend.
  destruct (traces (conn self) !! trace_id) as [tr|]; [|done].
  generalize self.
  match goal with |- ∀ s, self_after (?m s) = s => change (pure m) end.
  pose proof span_loop_pure. pose proof py_max_pure.
  pose proof db_percentage_pure.
  eauto 40 with pure_db.
Qed.

Lemma service_loop_pure rows : pure (service_loop rows).
Proof. induction rows as [|row rest IH]; simpl; eauto 20 with pure_db. Qed.

Lemma get_service_performance_pure fetched :
  pure (get_service_performance fetched).
Proof.
  unfold get_service_performance. pose proof service_loop_pure.
  eauto 10 with pure_db.
Qed.

Lemma self_after_then_ret {A} (m : Py A) self :
  self_after ((m;; mret tt) self) = self_after (m self).
Proof. run_py. by destruct (m self) as [out [a|e] self']. Qed.

(** ** What one call does to the rows *)

(** What one call can do to a row of [traces]: nothing, unless the call
    is the [end_trace] that closes that open trace. *)
Lemma call_trace_row env c self tid r :
  traces (conn self) !! tid = Some r →
  let self' := self_after (call env c self) in
  traces (conn self') !! tid = Some r ∨
  ∃ status st info,
    c = End_trace tid status ∧ to_varchar 20 status = Some st ∧
    active_traces self !! tid = Some info ∧
    active_traces self' !! tid = None ∧
    traces (conn self') !! tid =
      Some (close_trace (now env) (elapsed_ms env (Active.start_time info))
              st r).
Proof.
  intros Hr self'. subst self'. destruct c; unfold call.
  - left. rewrite self_after_then_ret.
    destruct (start_trace_cases env service_name operation_name self)
      as [[e ->]|(sv & op & _ & _ & E & ->)]; [done|]. simpl.
    rewrite lookup_insert_ne; [done|congruence].
  - destruct (end_trace_cases env trace_id status self)
      as [[_ ->]|[[_ ->]|(info & st & E & Hst & _ & ->)]]; [by left..|].
    simpl. destruct (decide (trace_id = tid)) as [->|Hne].
    + right. exists status, st, info.
      by rewrite lookup_alter_eq, Hr, lookup_delete_eq.
    + left. by rewrite lookup_alter_ne.
  - left. rewrite self_after_then_ret.
    by rewrite (proj1 (create_span_same _ _ _ _ _ _)).
  - left. by rewrite (proj1 (end_span_same _ _ _ _ _ _)).
  - left. by rewrite analyze_trace_pure.
  - left. by rewrite get_service_performance_pure.
Qed.

(** What one call can do to a row of [spans]: nothing, unless the call is
    an [end_span] on that span. *)
Lemma call_span_row env c self sid s :
  spans (conn self) !! sid = Some s →
  let self' := self_after (call env c self) in
  spans (conn self') !! sid = Some s ∨
  ∃ query rows_affected status st,
    c = End_span sid query rows_affected status ∧
    to_varchar 20 status = Some st ∧
    spans (conn self') !! sid =
      Some (close_span (now env) query rows_affected st s).
Proof.
  intros Hs self'. subst self'. destruct c; unfold call.
  - left. rewrite self_after_then_ret.
    by destruct (start_trace_cases env service_name operation_name self)
      as [[e ->]|(sv & op & _ & _ & E & ->)].
  - left.
    by destruct (end_trace_cases env trace_id status self)
      as [[_ ->]|[[_ ->]|(info & st & E & Hst & _ & ->)]].
  - left. rewrite self_after_then_ret.
    destruct (create_span_cases env trace_id service_name operation_name
                parent_span_id self)
      as [[e ->]|(?&?&?&?&_&_&_&_&_& Hfresh & ->)]; [done|]. simpl.
    rewrite lookup_insert_ne; [done|congruence].
  - destruct (end_span_cases env span_id query rows_affected status self)
      as [[res ->]|(st & s0 & Hst & Hs0 & ->)]; [by left|]. simpl.
    destruct (decide (span_id = sid)) as [->|Hne].
    + right. exists query, rows_affected, status, st.
      by rewrite lookup_alter_eq, Hs.
    + left. by rewrite lookup_alter_ne.
  - left. by rewrite analyze_trace_pure.
  - left. by rewrite get_service_performance_pure.
Qed.

(** Where a row of [spans] found after a call comes from. *)
Lemma call_span_row_inv env c self sid s' :
  spans (conn (self_after (call env c self))) !! sid = Some s' →
  spans (conn self) !! sid = Some s' ∨
  (spans (conn self) !! sid = None ∧
   Span.start_time s' = now env ∧ Span.end_time s' = None) ∨
  (∃ s, spans (conn self) !! sid = Some s ∧
        Span.start_time s' = Span.start_time s ∧
        Span.end_time s' = Some (now env)).
Proof.
  destruct c; unfold call.
  - rewrite self_after_then_ret.
    destruct (start_trace_cases env service_name operation_name self)
      as [[e ->]|(sv & op & _ & _ & E & ->)]; by left.
  - destruct (end_trace_cases env trace_id status self)
      as [[_ ->]|[[_ ->]|(info & st & E & Hst & _ & ->)]]; by left.
  - rewrite self_after_then_ret.
    destruct (create_span_cases env trace_id service_name operation_name
                parent_span_id self)
      as [[e ->]|(?&?&?&?&_&_&_&_&_& Hfresh & ->)]; [by left|]. simpl.
    intros Hs. destruct (decide (uuid4 env = sid)) as [<-|Hne].
    + rewrite lookup_insert_eq in Hs. injection Hs as <-. right. by left.
    + rewrite lookup_insert_ne in Hs by done. by left.
  - destruct (end_span_cases env span_id query rows_affected status self)
      as [[res ->]|(st & s0 & Hst & Hs0 & ->)]; [by left|]. simpl.
    intros Hs.
    apply lookup_alter_Some in Hs as [(_ & s1 & Hs1 & ->)|(_ & Hs)];
      [|by left].
    right. right. by exists s1.
  - rewrite analyze_trace_pure. by left.
  - rewrite get_service_performance_pure. by left.
Qed.

(** ** The invariants of the recorder *)

Lemma well_formed_init : well_formed init.
Proof.
  split; [|split].
  - intros tid [x H]. simpl in H. by rewrite lookup_empty in H.
  - intros tid r H. simpl in H. by rewrite lookup_empty in H.
  - intros sid s H. simpl in H. by rewrite lookup_empty in H.
Qed.

Lemma well_formed_call env c self :
  well_formed self → well_formed (self_after (call env c self)).
Proof.
  intros (Hopen & Hmeta & Hspan). destruct c; unfold call.
  - rewrite self_after_then_ret.
    destruct (start_trace_cases env service_name operation_name self)
      as [[e ->]|(sv & op & _ & _ & E & ->)]; [done|].
    split; [|split]; simpl.
    + intros tid Hi. destruct (decide (uuid4 env = tid)) as [<-|Hne].
      * eexists. by rewrite lookup_insert_eq.
      * rewrite lookup_insert_ne in Hi by done.
        destruct (Hopen _ Hi) as (r & Hr & ?). exists r.
        by rewrite lookup_insert_ne.
    + intros tid r Hr. destruct (decide (uuid4 env = tid)) as [<-|Hne].
      * rewrite lookup_insert_eq in Hr. by injection Hr as <-.
      * rewrite lookup_insert_ne in Hr by done. eauto.
    + intros sid s Hs. destruct (Hspan _ _ Hs) as [Hfk Hshape].
      split; [|done]. apply lookup_insert_is_Some'. by right.
  - destruct (end_trace_cases env trace_id status self)
      as [[_ ->]|[[_ ->]|(info & st & E & Hst & _ & ->)]]; [done..|].
    split; [|split]; simpl.
    + intros tid Hi. apply lookup_delete_is_Some in Hi as [Hne Hi].
      destruct (Hopen _ Hi) as (r & Hr & ?). exists r.
      by rewrite lookup_alter_ne.
    + intros tid r Hr. apply lookup_alter_Some in Hr
        as [(_ & r0 & Hr0 & ->)|(_ & Hr)]; [|eauto].
      simpl. eauto.
    + intros sid s Hs. destruct (Hspan _ _ Hs) as [Hfk Hshape].
      split; [|done]. by apply lookup_alter_is_Some.
  - rewrite self_after_then_ret.
    destruct (create_span_cases env trace_id service_name operation_name
                parent_span_id self)
      as [[e ->]|(?&?&?&?&_&_&_&_& Ht & Hfresh & ->)]; [done|].
    split; [|split]; simpl; [done..|].
    intros sid s Hsid. destruct (decide (uuid4 env = sid)) as [<-|Hne].
    + rewrite lookup_insert_eq in Hsid. by injection Hsid as <-.
    + rewrite lookup_insert_ne in Hsid by done. eauto.
  - destruct (end_span_cases env span_id query rows_affected status self)
      as [[res ->]|(st & s0 & Hst & Hs0 & ->)]; [done|].
    split; [|split]; simpl; [done..|].
    intros sid s Hs. apply lookup_alter_Some in Hs
      as [(_ & s1 & Hs1 & ->)|(_ & Hs)]; [|eauto].
    destruct (Hspan _ _ Hs1) as [Hfk _]. simpl. eauto.
  - by rewrite analyze_trace_pure.
  - by rewrite get_service_performance_pure.
Qed.

Lemma well_formed_exec cs : ∀ self,
  well_formed self → well_formed (exec cs self).
Proof.
  induction cs as [|[env c] cs IH]; intros self Hwf; [done|].
  simpl. by apply IH, well_formed_call.
Qed.

Lemma reachable_well_formed cs : well_formed (exec cs init).
Proof. apply well_formed_exec, well_formed_init. Qed.

Lemma closed_traces_have_duration_call env c self :
  closed_traces_have_duration self →
  closed_traces_have_duration (self_after (call env c self)).
Proof.
  intros Hinv. destruct c; unfold call.
  - rewrite self_after_then_ret.
    destruct (start_trace_cases env service_name operation_name self)
      as [[e ->]|(sv & op & _ & _ & E & ->)]; [done|].
    intros tid r Hr Ha. simpl in Hr, Ha.
    destruct (decide (uuid4 env = tid)) as [<-|Hne].
    + by rewrite lookup_insert_eq in Ha.
    + rewrite lookup_insert_ne in Hr by done.
      rewrite lookup_insert_ne in Ha by done. by apply (Hinv tid).
  - destruct (end_trace_cases env trace_id status self)
      as [[_ ->]|[[_ ->]|(info & st & E & Hst & _ & ->)]]; [done..|].
    intros tid r Hr Ha. simpl in Hr, Ha.
    apply lookup_alter_Some in Hr as [(<- & r0 & Hr0 & ->)|(Hne & Hr)].
    + simpl. eauto.
    + rewrite lookup_delete_ne in Ha by done. by apply (Hinv tid).
  - rewrite self_after_then_ret.
    by destruct (create_span_cases env trace_id service_name operation_name
                   parent_span_id self)
      as [[e ->]|(?&?&?&?&_&_&_&_&_&_& ->)].
  - by destruct (end_span_cases env span_id query rows_affected status self)
      as [[res ->]|(?&?&_&_& ->)].
  - by rewrite analyze_trace_pure.
  - by rewrite get_service_performance_pure.
Qed.

Lemma reachable_closed_traces_have_duration cs :
  closed_traces_have_duration (exec cs init).
Proof.
  assert (∀ self, closed_traces_have_duration self →
                  closed_traces_have_duration (exec cs self)) as Hexec.
  { induction cs as [|[env c] cs IH]; intros self Hinv; [done|].
    simpl. by apply IH, closed_traces_have_duration_call. }
  apply Hexec. intros tid r Hr. simpl in Hr. by rewrite lookup_empty in Hr.
Qed.


Lemma traces_timed_call clk env c self :
  traces_timed clk self → clk ≤ now env →
  traces_timed (now env) (self_after (call env c self)).
Proof.
  intros Ht Hle tid r' Hr'.
  assert (Hold : ∀ r, traces (conn self) !! tid = Some r →
            Trace.start_time r ≤ now env ∧
            ∀ e, Trace.end_time r = Some e → Trace.start_time r ≤ e).
  { intros r Hr. destruct (Ht _ _ Hr) as [H1 H2]. split; [lia|done]. }
  destruct (traces (conn self) !! tid) as [r|] eqn:Hr.
  - destruct (call_trace_row env c self tid r Hr)
      as [H|(status & st & info & _ & _ & _ & _ & H)].
    + assert (r' = r) as -> by congruence. by apply Hold.
    + assert (r' = close_trace (now env)
                     (elapsed_ms env (Active.start_time info)) st r) as ->
        by congruence.
      destruct (Hold r eq_refl) as [H1 _]. simpl. split; [done|].
      by intros e [= <-].
  - destruct c; unfold call in Hr'.
    + rewrite self_after_then_ret in Hr'.
      destruct (start_trace_cases env service_name operation_name self)
        as [[e Hrun]|(sv & op & _ & _ & E & Hrun)];
        rewrite Hrun in Hr'; simpl in Hr'; [congruence|].
      destruct (decide (uuid4 env = tid)) as [<-|Hne].
      * rewrite lookup_insert_eq in Hr'. injection Hr' as <-. simpl.
        split; [lia|done].
      * rewrite lookup_insert_ne in Hr' by done. congruence.
    + destruct (end_trace_cases env trace_id status self)
        as [[_ Hrun]|[[_ Hrun]|(info & st & E & Hst & _ & Hrun)]];
        rewrite Hrun in Hr'; simpl in Hr'; [congruence..|].
      apply lookup_alter_Some in Hr' as [(_ & r0 & Hr0 & _)|(_ & Hr')];
        congruence.
    + rewrite self_after_then_ret in Hr'.
      rewrite (proj1 (create_span_same _ _ _ _ _ _)) in Hr'. congruence.
    + rewrite (proj1 (end_span_same _ _ _ _ _ _)) in Hr'. congruence.
    + rewrite analyze_trace_pure in Hr'. congruence.
    + rewrite get_service_performance_pure in Hr'. congruence.
Qed.

Lemma traces_timed_exec cs : ∀ clk self,
  traces_timed clk self →
  Forall (λ ec, clk ≤ now ec.1) cs →
  db_clock_ascends cs →
  ∃ clk', traces_timed clk' (exec cs self).
Proof.
  induction cs as [|[env c] cs IH]; intros clk self Ht Hge Hs; simpl.
  - by exists clk.
  - apply Forall_cons_1 in Hge as [H1 _].
    apply StronglySorted_inv in Hs as [Hs Hhd].
    apply (IH (now env)); [by apply (traces_timed_call clk)|exact Hhd|done].
Qed.

Lemma reachable_traces_timed cs :
  db_clock_ascends cs → ∃ clk, traces_timed clk (exec cs init).
Proof.
  intros Hs. destruct cs as [|[env c] cs].
  - exists 0. intros tid r H. simpl in H. by rewrite lookup_empty in H.
  - apply (traces_timed_exec _ (now env)); [| |done].
    + intros tid r H. simpl in H. by rewrite lookup_empty in H.
    + apply StronglySorted_inv in Hs as [_ Hhd].
      constructor; [simpl; lia|exact Hhd].
Qed.






(** ** Trace Recorder: closing a trace *)




(** C8, counterexample.  A trace ended at a reading of the database
    clock that lies before the reading at its start: its end timestamp,
    set by the one [end_trace] that closed it, is before its start
    timestamp. *)
Lemma trace_end_before_start :
  let cs := [(env_at "t1" 1000 2000, Start_trace "api-gateway" "create_order");
             (env_at "" 131000 1500, End_trace "t1" "success")] in
  ∃ r e, traces (conn (exec cs init)) !! "t1" = Some r ∧
         Trace.end_time r = Some e ∧ e < Trace.start_time r.
Proof.
  intros cs.
  exists (Trace.mk "api-gateway" "create_order" 2000 (Some 1500) (Some 13000)
            "success" None), 1500.
  split; [by vm_compute|]. split; [done|]. simpl. lia.
Qed.

(** C8, amended.  In every state the recorder reaches from a fresh one:
    a [start_trace] that returns has created the row of the trace with
    null [end_time] and [duration_ms]; a row has the two columns null
    exactly while its trace is open (in [active_traces]); a call either
    leaves a trace row as it is, or it is the [end_trace] that closes
    that open trace, whose row had the two columns null and whose id then
    leaves [active_traces]; so the two columns are set once, a row whose
    [end_time] is set is never written again, and no call other than
    [end_trace] changes a trace row.  While the database clock does not
    run backwards, an [end_time] that is set is not before
    [start_time]. *)
Theorem trace_end_set_exactly_once cs :
  let self := exec cs init in
  (∀ env service_name operation_name trace_id,
     let run := start_trace env service_name operation_name self in
     outcome run = Returned trace_id →
     traces (conn self) !! trace_id = None ∧
     is_Some (active_traces (self_after run) !! trace_id) ∧
     ∃ r, traces (conn (self_after run)) !! trace_id = Some r ∧
          Trace.start_time r = now env ∧ Trace.end_time r = None ∧
          Trace.duration_ms r = None ∧ Trace.status r = "in_progress") ∧
  (∀ trace_id r,
     traces (conn self) !! trace_id = Some r →
     (is_Some (active_traces self !! trace_id) ↔ Trace.end_time r = None) ∧
     (Trace.end_time r = None ↔ Trace.duration_ms r = None)) ∧
  (∀ env c trace_id r,
     traces (conn self) !! trace_id = Some r →
     let self' := self_after (call env c self) in
     traces (conn self') !! trace_id = Some r ∨
     (Trace.end_time r = None ∧ Trace.duration_ms r = None ∧
      ∃ status st info,
        c = End_trace trace_id status ∧
        to_varchar 20 status = Some st ∧
        active_traces self !! trace_id = Some info ∧
        active_traces self' !! trace_id = None ∧
        traces (conn self') !! trace_id =
          Some (close_trace (now env)
                  (elapsed_ms env (Active.start_time info)) st r))) ∧
  (∀ env c trace_id r e,
     traces (conn self) !! trace_id = Some r →
     Trace.end_time r = Some e →
     traces (conn (self_after (call env c self))) !! trace_id = Some r) ∧
  (db_clock_ascends cs →
   ∀ trace_id r e,
     traces (conn self) !! trace_id = Some r →
     Trace.end_time r = Some e → Trace.start_time r ≤ e).
Proof.
  intros self.
  destruct (reachable_well_formed cs) as (Hopen & _ & _).
  pose proof (reachable_closed_traces_have_duration cs) as Hclosed.
  fold self in Hopen, Hclosed.
  assert (Hstep : ∀ env c trace_id r,
     traces (conn self) !! trace_id = Some r →
     traces (conn (self_after (call env c self))) !! trace_id = Some r ∨
     (Trace.end_time r = None ∧ Trace.duration_ms r = None ∧
      ∃ status st info,
        c = End_trace trace_id status ∧
        to_varchar 20 status = Some st ∧
        active_traces self !! trace_id = Some info ∧
        active_traces (self_after (call env c self)) !! trace_id = None ∧
        traces (conn (self_after (call env c self))) !! trace_id =
          Some (close_trace (now env)
                  (elapsed_ms env (Active.start_time info)) st r))).
  { intros env c trace_id r Hr.
    destruct (call_trace_row env c self trace_id r Hr)
      as [H|(status & st & info & -> & Hst & Hi & Hgone & H)];
      [by left|right].
    destruct (Hopen trace_id) as (r' & Hr' & _ & He & Hd); [by eexists|].
    assert (r' = r) as -> by congruence. eauto 12. }
  split; [|split; [|split; [|split]]].
  - intros env service_name operation_name trace_id run Hret. subst run.
    destruct (start_trace_cases env service_name operation_name self)
      as [[e Hrun]|(sv & op & _ & _ & E & Hrun)];
      rewrite Hrun in Hret |- *; simpl in *; [discriminate|].
    injection Hret as <-. rewrite !lookup_insert_eq.
    split; [done|]. split; [eauto|]. eexists. split; [done|]. done.
  - intros trace_id r Hr. split; [split|split].
    + intros Hi. destruct (Hopen _ Hi) as (r' & Hr' & _ & He & _).
      congruence.
    + intros He. destruct (active_traces self !! trace_id) eqn:E; [eauto|].
      destruct (Hclosed _ _ Hr E) as [[e He'] _]. congruence.
    + intros He. destruct (active_traces self !! trace_id) as [info|] eqn:E.
      * destruct (Hopen trace_id) as (r' & Hr' & _ & _ & Hd); [by eexists|].
        congruence.
      * destruct (Hclosed _ _ Hr E) as [[e He'] _]. congruence.
    + intros Hd. destruct (active_traces self !! trace_id) as [info|] eqn:E.
      * destruct (Hopen trace_id) as (r' & Hr' & _ & He & _); [by eexists|].
        congruence.
      * destruct (Hclosed _ _ Hr E) as [_ [d Hd']]. congruence.
  - exact Hstep.
  - intros env c trace_id r e Hr He.
    destruct (Hstep env c trace_id r Hr) as [H|(He' & _)]; [done|congruence].
  - intros Hs trace_id r e Hr He.
    destruct (reachable_traces_timed cs Hs) as [clk Ht]. fold self in Ht.
    destruct (Ht _ _ Hr) as [_ Hle]. by apply Hle.
Qed.

Lemma trace_end_set_exactly_once_witness :
  let cs := [(env_at "t1" 1000 2000, Start_trace "api-gateway" "create_order");
             (env_at "" 131000 132004, End_trace "t1" "success")] in
  db_clock_ascends cs ∧
  2000 ≤ 132004 ∧
  ∀ env c,
    traces (conn (self_after (call env c (exec cs init)))) !! "t1" =
      Some (Trace.mk "api-gateway" "create_order" 2000 (Some 132004)
              (Some 13000) "success" None).
Proof.
  intros cs.
  assert (Hs : db_clock_ascends cs)
    by (vm_compute; repeat constructor; discriminate).
  destruct (trace_end_set_exactly_once cs) as (_ & _ & _ & Honce & Hle).
  split; [exact Hs|]. split.
  - apply (Hle Hs "t1" (Trace.mk "api-gateway" "create_order" 2000
                          (Some 132004) (Some 13000) "success" None));
      [vm_compute; reflexivity|reflexivity].
  - intros env c.
    apply (Honce env c "t1" _ 132004); [vm_compute; reflexivity|reflexivity].
Defined.

(** ** Trace Analyzer: the loop over the spans *)

Lemma db_time_of_cons row rest :
  db_time_of (row :: rest) =
  (if db_attributed row then default 0 (SpanRow.duration_ms row) else 0)
  + db_time_of rest.
Proof.
  unfold db_time_of. rewrite filter_cons.
  destruct (db_attributed row); simpl; [|done].
  by destruct (SpanRow.duration_ms row).
Qed.

(** With every duration recorded the loop prints span lines only and
    returns the accumulator increased by the DB time. *)
Lemma span_loop_ok rows : ∀ total self,
  Forall (λ r, is_Some (SpanRow.duration_ms r)) rows →
  ∃ lines,
    span_loop rows total self =
      mkRun lines (Returned (total + db_time_of rows)) self ∧
    Forall is_span_event lines.
Proof.
  induction rows as [|row rest IH]; intros total self Hall.
  - exists []. split; [|constructor]. simpl. run_py.
    unfold db_time_of. simpl. by rewrite Z.add_0_r.
  - apply Forall_cons_1 in Hall as [[d Hd] Hrest].
    rewrite db_time_of_cons. unfold db_attributed.
    cbn [span_loop]. run_py. rewrite Hd. simpl.
    destruct (truthy (SpanRow.db_query row)); simpl.
    + destruct (IH (total + d) self Hrest) as (lines & -> & Hl). simpl.
      eexists. split; [by rewrite Z.add_assoc|].
      repeat (constructor; [done|]). done.
    + destruct (IH total self Hrest) as (lines & -> & Hl). simpl.
      eexists. split; [done|].
      repeat (constructor; [done|]). done.
Qed.

(** A span without duration stops the loop with [TypeError]. *)
Lemma span_loop_null rows : ∀ total self,
  Exists (λ r, SpanRow.duration_ms r = None) rows →
  ∃ lines,
    span_loop rows total self = mkRun lines (Raised TypeError) self ∧
    Forall is_span_event lines.
Proof.
  induction rows as [|row rest IH]; intros total self Hex.
  - by apply Exists_nil in Hex.
  - cbn [span_loop]. run_py.
    destruct (SpanRow.duration_ms row) as [d|] eqn:Hd; simpl.
    + apply Exists_cons in Hex as [Hex|Hex]; [congruence|].
      destruct (truthy (SpanRow.db_query row)); simpl.
      * destruct (IH (total + d) self Hex) as (lines & -> & Hl). simpl.
        eexists. split; [done|]. repeat (constructor; [done|]). done.
      * destruct (IH total self Hex) as (lines & -> & Hl). simpl.
        eexists. split; [done|]. repeat (constructor; [done|]). done.
    + eexists. split; [done|]. repeat (constructor; [done|]). constructor.
Qed.

(** ** Trace Analyzer: [max] *)

(** On keys that are all recorded, [max_loop] returns the item at the
    first position that holds the largest key: no key exceeds the key of
    the result and every key before that position is strictly smaller. *)
Lemma max_loop_first_max rest : ∀ best kb self,
  SpanRow.duration_ms best = Some kb →
  Forall (λ r, is_Some (SpanRow.duration_ms r)) rest →
  ∃ (i : nat) b k,
    (best :: rest) !! i = Some b ∧ SpanRow.duration_ms b = Some k ∧
    max_loop best rest self = mkRun [] (Returned b) self ∧
    ∀ (j : nat) x kx,
      (best :: rest) !! j = Some x → SpanRow.duration_ms x = Some kx →
      kx ≤ k ∧ ((j < i)%nat → kx < k).
Proof.
  induction rest as [|x rest IH]; intros best kb self Hkb Hall.
  - exists 0%nat, best, kb. split; [done|]. split; [done|]. split; [reflexivity|].
    intros j y ky Hj Hy. split; [|lia].
    destruct j; simpl in Hj; [|done]. assert (ky = kb) by congruence. lia.
  - apply Forall_cons_1 in Hall as [[kx Hkx] Hrest].
    cbn [max_loop]. run_py. rewrite Hkx, Hkb. simpl.
    destruct (Z.ltb_spec kb kx) as [Hlt|Hge].
    + destruct (IH x kx self Hkx Hrest) as (i & b & k & Hi & Hk & Hrun & Hmax).
      exists (S i), b, k. split; [done|]. split; [done|].
      split; [by rewrite Hrun|].
      intros j y ky Hj Hy. destruct j as [|j]; simpl in Hj.
      * destruct (Hmax 0%nat x kx eq_refl Hkx) as [? _].
        assert (ky = kb) by congruence. lia.
      * destruct (Hmax j y ky Hj Hy) as [Hle Hs]. split; [done|].
        intros ?. apply Hs. lia.
    + destruct (IH best kb self Hkb Hrest) as (i & b & k & Hi & Hk & Hrun & Hmax).
      destruct (Hmax 0%nat best kb eq_refl Hkb) as [Hle0 Hlt0].
      exists (match i with O => O | S i' => S (S i') end), b, k.
      split; [by destruct i|]. split; [done|]. split; [by rewrite Hrun|].
      intros j y ky Hj Hy. destruct j as [|[|j]]; simpl in Hj.
      * destruct (Hmax 0%nat y ky Hj Hy) as [Hle Hs]. split; [done|].
        intros ?. apply Hs. destruct i; lia.
      * assert (ky = kx) by congruence. subst ky. split; [lia|].
        intros ?. destruct i as [|i']; [lia|]. specialize (Hlt0 ltac:(lia)). lia.
      * destruct (Hmax (S j) y ky Hj Hy) as [Hle Hs]. split; [done|].
        intros ?. apply Hs. destruct i; lia.
Qed.

Lemma py_max_empty self : py_max [] self = mkRun [] (Raised ValueError) self.
Proof. done. Qed.

Lemma py_max_first_max rows self :
  rows ≠ [] →
  Forall (λ r, is_Some (SpanRow.duration_ms r)) rows →
  ∃ (i : nat) b k,
    rows !! i = Some b ∧ SpanRow.duration_ms b = Some k ∧
    py_max rows self = mkRun [] (Returned b) self ∧
    ∀ (j : nat) x kx,
      rows !! j = Some x → SpanRow.duration_ms x = Some kx →
      kx ≤ k ∧ ((j < i)%nat → kx < k).
Proof.
  intros Hne Hall. destruct rows as [|best rest]; [done|].
  apply Forall_cons_1 in Hall as [[kb Hkb] Hrest].
  by apply (max_loop_first_max rest best kb).
Qed.

(** ** Trace Analyzer: the runs of [analyze_trace] *)

Lemma analyze_trace_not_found fetched trace_id self :
  traces (conn self) !! trace_id = None →
  analyze_trace fetched trace_id self =
  mkRun [Out_trace_not_found] (Returned tt) self.
Proof. intros H. unfold analyze_trace. run_py. by rewrite H. Qed.

Lemma analyze_trace_null_duration fetched trace_id self tr :
  traces (conn self) !! trace_id = Some tr →
  Trace.duration_ms tr = None →
  analyze_trace fetched trace_id self =
  mkRun [Out_banner "TRACE ANALYSIS"; Out_trace_id trace_id;
         Out_operation (Trace.service_name tr) (Trace.operation_name tr)]
    (Raised TypeError) self.
Proof. intros H Hd. unfold analyze_trace. run_py. by rewrite H, Hd. Qed.

Lemma analyze_trace_null_span fetched trace_id self tr d :
  traces (conn self) !! trace_id = Some tr →
  Trace.duration_ms tr = Some d →
  Exists (λ r, SpanRow.duration_ms r = None) fetched →
  ∃ lines,
    analyze_trace fetched trace_id self =
      mkRun (header_lines trace_id tr d (length fetched) ++ lines)
        (Raised TypeError) self ∧
    Forall is_span_event lines.
Proof.
  intros H Hd Hex. unfold analyze_trace. run_py. rewrite H, Hd. simpl.
  destruct (span_loop_null fetched 0 self Hex) as (lines & -> & Hl). simpl.
  by exists lines.
Qed.

Lemma analyze_trace_empty trace_id self tr d :
  traces (conn self) !! trace_id = Some tr →
  Trace.duration_ms tr = Some d →
  analyze_trace [] trace_id self =
  mkRun (header_lines trace_id tr d 0 ++ metrics_lines 0 d)
    (Raised ValueError) self.
Proof. intros H Hd. unfold analyze_trace. run_py. by rewrite H, Hd. Qed.

Lemma analyze_trace_complete fetched trace_id self tr d :
  traces (conn self) !! trace_id = Some tr →
  Trace.duration_ms tr = Some d →
  Forall (λ r, is_Some (SpanRow.duration_ms r)) fetched →
  fetched ≠ [] →
  ∃ lines (i : nat) b k,
    fetched !! i = Some b ∧ SpanRow.duration_ms b = Some k ∧
    (∀ (j : nat) x kx,
       fetched !! j = Some x → SpanRow.duration_ms x = Some kx →
       kx ≤ k ∧ ((j < i)%nat → kx < k)) ∧
    Forall is_span_event lines ∧
    analyze_trace fetched trace_id self =
      mkRun (header_lines trace_id tr d (length fetched) ++ lines ++
             metrics_lines (db_time_of fetched) d ++
             slowest_lines (SpanRow.service_name b) (SpanRow.operation_name b) k)
        (Returned tt) self.
Proof.
  intros H Hd Hall Hne.
  destruct (span_loop_ok fetched 0 self Hall) as (lines & Hloop & Hl).
  destruct (py_max_first_max fetched self Hne Hall)
    as (i & b & k & Hi & Hk & Hmax & Hfirst).
  exists lines, i, b, k. do 4 (split; [done|]).
  unfold analyze_trace. run_py. rewrite H, Hd. simpl.
  rewrite Z.add_0_l in Hloop.
  rewrite Hloop. simpl. rewrite Hmax. simpl. rewrite Hk. reflexivity.
Qed.

(** With every duration recorded the metrics are printed, whether or not
    there is a span. *)
Lemma analyze_trace_metrics fetched trace_id self tr d :
  traces (conn self) !! trace_id = Some tr →
  Trace.duration_ms tr = Some d →
  Forall (λ r, is_Some (SpanRow.duration_ms r)) fetched →
  ∃ lines tail,
    output (analyze_trace fetched trace_id self) =
      header_lines trace_id tr d (length fetched) ++ lines ++
      metrics_lines (db_time_of fetched) d ++ tail ∧
    Forall is_span_event lines.
Proof.
  intros H Hd Hall. destruct fetched as [|row rest].
  - rewrite (analyze_trace_empty _ _ _ _ H Hd). simpl.
    exists [], []. split; [done|constructor].
  - destruct (analyze_trace_complete (row :: rest) _ _ _ _ H Hd Hall)
      as (lines & i & b & k & _ & _ & _ & Hl & ->); [done|].
    simpl. by eexists lines, _.
Qed.

Lemma durations_recorded_or_not (rows : list SpanRow.t) :
  Forall (λ r, is_Some (SpanRow.duration_ms r)) rows ∨
  Exists (λ r, SpanRow.duration_ms r = None) rows.
Proof.
  induction rows as [|row rest [IH|IH]].
  - left. constructor.
  - destruct (SpanRow.duration_ms row) as [d|] eqn:E.
    + left. constructor; [by rewrite E|done].
    + right. by constructor.
  - right. by constructor.
Qed.

Lemma span_event_elem e lines :
  Forall is_span_event lines → e ∈ lines → is_span_event e.
Proof. intros Hl [i Hi]%list_elem_of_lookup. by eapply Forall_lookup_1. Qed.

(** The metrics line is printed only on a trace with a recorded duration
    whose spans all have one, and then carries the DB time and the
    percentage. *)
Lemma analyze_trace_db_time_inv fetched trace_id self t p :
  Out_db_time t p ∈ output (analyze_trace fetched trace_id self) →
  ∃ tr d,
    traces (conn self) !! trace_id = Some tr ∧
    Trace.duration_ms tr = Some d ∧
    Forall (λ r, is_Some (SpanRow.duration_ms r)) fetched ∧
    t = db_time_of fetched ∧ p = percentage_of t d.
Proof.
  intros Hin.
  destruct (traces (conn self) !! trace_id) as [tr|] eqn:H.
  2:{ rewrite analyze_trace_not_found in Hin by done. simpl in Hin.
      set_unfold in Hin. naive_solver. }
  destruct (Trace.duration_ms tr) as [d|] eqn:Hd.
  2:{ rewrite (analyze_trace_null_duration _ _ _ _ H Hd) in Hin. simpl in Hin.
      set_unfold in Hin. naive_solver. }
  destruct (durations_recorded_or_not fetched) as [Hall|Hex].
  2:{ destruct (analyze_trace_null_span _ _ _ _ _ H Hd Hex) as (lines & Heq & Hl).
      rewrite Heq in Hin. simpl in Hin.
      pose proof (span_event_elem (Out_db_time t p) lines Hl).
      set_unfold in Hin. naive_solver. }
  exists tr, d. do 3 (split; [done|]).
  destruct fetched as [|row rest].
  - rewrite (analyze_trace_empty _ _ _ _ H Hd) in Hin. simpl in Hin.
    set_unfold in Hin. naive_solver.
  - destruct (analyze_trace_complete (row :: rest) _ _ _ _ H Hd Hall)
      as (lines & i & b & k & _ & _ & _ & Hl & Heq); [done|].
    rewrite Heq in Hin. simpl in Hin.
    pose proof (span_event_elem (Out_db_time t p) lines Hl).
    set_unfold in Hin. unfold slowest_lines in Hin. set_unfold in Hin.
    naive_solver.
Qed.

(** The bottleneck lines are printed only on a complete run. *)
Lemma analyze_trace_slowest_inv fetched trace_id self k :
  Out_slowest_duration k ∈ output (analyze_trace fetched trace_id self) →
  ∃ tr d,
    traces (conn self) !! trace_id = Some tr ∧
    Trace.duration_ms tr = Some d ∧
    Forall (λ r, is_Some (SpanRow.duration_ms r)) fetched ∧
    fetched ≠ [].
Proof.
  intros Hin.
  destruct (traces (conn self) !! trace_id) as [tr|] eqn:H.
  2:{ rewrite analyze_trace_not_found in Hin by done. simpl in Hin.
      set_unfold in Hin. naive_solver. }
  destruct (Trace.duration_ms tr) as [d|] eqn:Hd.
  2:{ rewrite (analyze_trace_null_duration _ _ _ _ H Hd) in Hin. simpl in Hin.
      set_unfold in Hin. naive_solver. }
  destruct (durations_recorded_or_not fetched) as [Hall|Hex].
  2:{ destruct (analyze_trace_null_span _ _ _ _ _ H Hd Hex) as (lines & Heq & Hl).
      rewrite Heq in Hin. simpl in Hin.
      pose proof (span_event_elem (Out_slowest_duration k) lines Hl).
      set_unfold in Hin. naive_solver. }
  exists tr, d. do 3 (split; [done|]).
  intros ->. rewrite (analyze_trace_empty _ _ _ _ H Hd) in Hin. simpl in Hin.
  set_unfold in Hin. naive_solver.
Qed.

(** C6. A span is counted as DB-attributed exactly when its operation
    descriptor is a non-empty string, and the DB time that [analyze_trace]
    prints is the sum of the durations of exactly those spans; the
    percentage printed with it is [total_db_time / duration * 100] when
    the duration of the trace is positive and [0] otherwise.  The line is
    printed whenever the trace and all its spans have a recorded duration,
    and it is printed with no other values. *)
Theorem analyze_db_time_and_percentage fetched trace_id self :
  (∀ row, db_attributed row = true ↔
          ∃ q, SpanRow.db_query row = Some q ∧ q ≠ "") ∧
  (∀ tr d,
     traces (conn self) !! trace_id = Some tr →
     Trace.duration_ms tr = Some d →
     Forall (λ r, is_Some (SpanRow.duration_ms r)) fetched →
     let total := db_time_of fetched in
     Out_db_time total
       (if 0 <? d then (Qc_of_Z total / Qc_of_Z d * Qc_of_Z 100)%Qc
        else Qc_of_Z 0)
     ∈ output (analyze_trace fetched trace_id self)) ∧
  (∀ t p,
     Out_db_time t p ∈ output (analyze_trace fetched trace_id self) →
     ∃ tr d,
       traces (conn self) !! trace_id = Some tr ∧
       Trace.duration_ms tr = Some d ∧
       t = sum_list_Z (omap SpanRow.duration_ms
                         (filter (λ r, db_attributed r = true) fetched)) ∧
       p = if 0 <? d then (Qc_of_Z t / Qc_of_Z d * Qc_of_Z 100)%Qc
           else Qc_of_Z 0).
Proof.
  split; [|split].
  - intros row. unfold db_attributed, truthy.
    destruct (SpanRow.db_query row) as [[|a q]|]; split; try done.
    + intros (q & Hq & Hne). congruence.
    + intros _. by eexists.
    + intros (q & Hq & _). congruence.
  - intros tr d H Hd Hall total.
    destruct (analyze_trace_metrics _ _ _ _ _ H Hd Hall)
      as (lines & tail & -> & _).
    unfold metrics_lines, percentage_of. set_unfold. naive_solver.
  - intros t p Hin.
    destruct (analyze_trace_db_time_inv _ _ _ _ _ Hin)
      as (tr & d & H & Hd & _ & Ht & Hp).
    exists tr, d. by repeat split.
Qed.

Lemma analyze_db_time_and_percentage_witness :
  let self := exec [(env_at "t1" 0 0, Start_trace "api-gateway" "create_order");
                    (env_at "s1" 10 10, Create_span "t1" "user-service" "validate_user" None);
                    (env_at "" 50010 50010, End_span "s1" (Some "SELECT 1") 1 "success");
                    (env_at "s2" 50020 50020, Create_span "t1" "notification-service" "send_email" None);
                    (env_at "" 80020 80020, End_span "s2" None 0 "success");
                    (env_at "" 100000 100000, End_trace "t1" "success")] init in
  let fetched := select_row <$> fetch_spans_sorted (conn self) "t1" in
  Out_db_time 5000 (Qc_of_Z 5000 / Qc_of_Z 10000 * Qc_of_Z 100)%Qc
  ∈ output (analyze_trace fetched "t1" self).
Proof.
  intros self fetched.
  refine (proj1 (proj2 (analyze_db_time_and_percentage fetched "t1" self))
            (Trace.mk "api-gateway" "create_order" 0 (Some 100000) (Some 10000)
               "success" None) 10000 _ _ _).
  - vm_compute. reflexivity.
  - reflexivity.
  - vm_compute. repeat constructor; by eexists.
Defined.

(** ** Trace Analyzer: the bottleneck *)

#[local] Instance by_start_time_trans : Transitive by_start_time.
Proof. intros a b c. unfold by_start_time. lia. Qed.

#[local] Instance by_start_time_total : Total by_start_time.
Proof. intros a b. unfold by_start_time. lia. Qed.

Lemma StronglySorted_lookup_lt {A} (R : relation A) l :
  StronglySorted R l →
  ∀ (i j : nat) x y, (i < j)%nat → l !! i = Some x → l !! j = Some y → R x y.
Proof.
  induction 1 as [|a l Hs IH Hall]; intros i j x y Hij Hi Hj; [done|].
  destruct j as [|j]; [lia|]. simpl in Hj. destruct i as [|i]; simpl in Hi.
  - injection Hi as <-. by eapply Forall_lookup_1.
  - apply (IH i j); [lia|done..].
Qed.

Lemma fetch_spans_sorted_ok db trace_id :
  fetch_spans db trace_id (fetch_spans_sorted db trace_id).
Proof.
  split; [apply merge_sort_Permutation|apply Sorted_merge_sort, _].
Qed.

Lemma fetch_spans_elem db trace_id recs sid s :
  fetch_spans db trace_id recs →
  spans db !! sid = Some s → Span.trace_id s = trace_id →
  (sid, s) ∈ recs.
Proof.
  intros [Hperm _] Hs Ht. rewrite Hperm. unfold spans_of_trace.
  apply list_elem_of_filter. split; [done|]. by apply elem_of_map_to_list.
Qed.



(** ** Trace Analyzer: traces in progress and traces without spans *)

(** C1, counterexample.  A trace that is still in progress, with one
    ended span: [analyze_trace] raises [TypeError]. *)
Lemma analyze_in_progress_trace_raises :
  let self := exec [(env_at "t1" 0 0, Start_trace "api-gateway" "create_order");
                    (env_at "s1" 10 10, Create_span "t1" "user-service" "validate_user" None);
                    (env_at "" 50010 50010, End_span "s1" (Some "SELECT 1") 1 "success")]
                   init in
  let recs := fetch_spans_sorted (conn self) "t1" in
  Trace.duration_ms <$> traces (conn self) !! "t1" = Some None ∧
  fetch_spans (conn self) "t1" recs ∧
  analyze_trace (select_row <$> recs) "t1" self =
    mkRun [Out_banner "TRACE ANALYSIS"; Out_trace_id "t1";
           Out_operation "api-gateway" "create_order"]
      (Raised TypeError) self.
Proof.
  intros self recs. split; [by vm_compute|]. split.
  - apply (bool_decide_unpack _). by vm_compute.
  - by vm_compute.
Qed.

(** C1, amended.  On a trace whose [duration_ms] is null [analyze_trace]
    does not complete: formatting the null duration raises [TypeError]
    after the trace id and the operation have been printed, before any
    duration or percentage; the tracer is left as it was.  On a trace with
    a recorded duration that has at least one span, all with a recorded
    duration, it returns normally, and a duration that is not positive is
    reported with percentage [0] instead of being divided by. *)
Theorem analyze_null_duration_raises fetched trace_id self tr :
  traces (conn self) !! trace_id = Some tr →
  (Trace.duration_ms tr = None →
   analyze_trace fetched trace_id self =
     mkRun [Out_banner "TRACE ANALYSIS"; Out_trace_id trace_id;
            Out_operation (Trace.service_name tr) (Trace.operation_name tr)]
       (Raised TypeError) self) ∧
  (∀ d, Trace.duration_ms tr = Some d →
     Forall (λ r, is_Some (SpanRow.duration_ms r)) fetched →
     fetched ≠ [] →
     outcome (analyze_trace fetched trace_id self) = Returned tt ∧
     self_after (analyze_trace fetched trace_id self) = self ∧
     (d ≤ 0 →
      Out_db_time (db_time_of fetched) (Qc_of_Z 0)
      ∈ output (analyze_trace fetched trace_id self))).
Proof.
  intros H. split.
  - intros Hd. by apply analyze_trace_null_duration.
  - intros d Hd Hall Hne.
    destruct (analyze_trace_complete _ _ _ _ _ H Hd Hall Hne)
      as (lines & i & b & k & _ & _ & _ & _ & ->).
    split; [done|]. split; [done|]. intros Hle. simpl.
    unfold metrics_lines, percentage_of.
    destruct (Z.ltb_spec 0 d); [lia|]. set_unfold. naive_solver.
Qed.

Lemma analyze_null_duration_raises_witness :
  let self := exec [(env_at "t1" 0 0, Start_trace "api-gateway" "create_order")]
                   init in
  analyze_trace [] "t1" self =
    mkRun [Out_banner "TRACE ANALYSIS"; Out_trace_id "t1";
           Out_operation "api-gateway" "create_order"]
      (Raised TypeError) self.
Proof.
  intros self.
  refine (proj1 (analyze_null_duration_raises [] "t1" self
                   (Trace.mk "api-gateway" "create_order" 0 None None
                      "in_progress" None) _) _).
  - vm_compute. reflexivity.
  - reflexivity.
Defined.

(** C2, counterexample.  A closed trace without spans: [analyze_trace]
    does take [max] of the empty sequence, which raises [ValueError]
    after the metrics have been printed.  An open trace without spans:
    the call ends earlier, with the [TypeError] of the null duration. *)
Lemma analyze_trace_without_spans_takes_max :
  let opened := exec [(env_at "t1" 0 0, Start_trace "api-gateway" "create_order")]
                     init in
  let closed := exec [(env_at "t1" 0 0, Start_trace "api-gateway" "create_order");
                      (env_at "" 100000 100000, End_trace "t1" "success")]
                     init in
  fetch_spans (conn closed) "t1" [] ∧
  fetch_spans (conn opened) "t1" [] ∧
  py_max [] closed = mkRun [] (Raised ValueError) closed ∧
  analyze_trace [] "t1" closed =
    mkRun [Out_banner "TRACE ANALYSIS"; Out_trace_id "t1";
           Out_operation "api-gateway" "create_order";
           Out_total_duration 10000; Out_status "success"; Out_span_count 0;
           Out_banner "PERFORMANCE METRICS";
           Out_db_time 0 (Qc_of_Z 0 / Qc_of_Z 10000 * Qc_of_Z 100)%Qc;
           Out_non_db_time 10000
             (Qc_of_Z 100 - Qc_of_Z 0 / Qc_of_Z 10000 * Qc_of_Z 100)%Qc]
      (Raised ValueError) closed ∧
  outcome (analyze_trace [] "t1" opened) = Raised TypeError.
Proof.
  intros opened closed.
  split; [apply (bool_decide_unpack _); by vm_compute|].
  split; [apply (bool_decide_unpack _); by vm_compute|].
  split; [done|]. split; by vm_compute.
Qed.

(** C2, amended.  On a trace whose row exists and that has no span,
    [analyze_trace] fails with an uncaught exception, prints no bottleneck
    and leaves the tracer as it was.  With a recorded duration the
    exception is the [ValueError] of [max] on the empty load, raised after
    the header and the metrics (DB time [0]) have been printed; with a
    null duration it is the [TypeError] of formatting that duration. *)
Theorem analyze_trace_without_spans_raises self trace_id tr recs :
  traces (conn self) !! trace_id = Some tr →
  (∀ sid s, spans (conn self) !! sid = Some s → Span.trace_id s ≠ trace_id) →
  fetch_spans (conn self) trace_id recs →
  let run := analyze_trace (select_row <$> recs) trace_id self in
  recs = [] ∧
  self_after run = self ∧
  (∀ k, Out_slowest_duration k ∉ output run) ∧
  match Trace.duration_ms tr with
  | Some d =>
      py_max (select_row <$> recs) self = mkRun [] (Raised ValueError) self ∧
      outcome run = Raised ValueError ∧
      output run = header_lines trace_id tr d 0 ++ metrics_lines 0 d
  | None =>
      outcome run = Raised TypeError ∧
      output run =
        [Out_banner "TRACE ANALYSIS"; Out_trace_id trace_id;
         Out_operation (Trace.service_name tr) (Trace.operation_name tr)]
  end.
Proof.
  intros H Hnone [Hperm _] run.
  assert (recs = []) as ->.
  { destruct recs as [|[sid s] recs]; [done|]. exfalso.
    assert (Hel : (sid, s) ∈ spans_of_trace (conn self) trace_id)
      by (rewrite <- Hperm; left).
    apply list_elem_of_filter in Hel as [Ht Hel].
    apply elem_of_map_to_list in Hel. by apply (Hnone _ _ Hel). }
  subst run. split; [done|]. split; [apply analyze_trace_pure|]. split.
  - intros k Hin.
    by destruct (analyze_trace_slowest_inv _ _ _ _ Hin) as (_ & _ & _ & _ & _ & ?).
  - destruct (Trace.duration_ms tr) as [d|] eqn:Hd.
    + simpl fmap. by rewrite (analyze_trace_empty _ _ _ _ H Hd).
    + by rewrite (analyze_trace_null_duration _ _ _ _ H Hd).
Qed.

Lemma analyze_trace_without_spans_raises_witness :
  let self := exec [(env_at "t1" 0 0, Start_trace "api-gateway" "create_order");
                    (env_at "" 100000 100000, End_trace "t1" "success")]
                   init in
  outcome (analyze_trace [] "t1" self) = Raised ValueError.
Proof.
  intros self.
  pose proof (analyze_trace_without_spans_raises self "t1"
                (Trace.mk "api-gateway" "create_order" 0 (Some 100000)
                   (Some 10000) "success" None) []) as Hthm.
  simpl in Hthm. apply Hthm.
  - vm_compute. reflexivity.
  - intros sid s Hs. vm_compute in Hs. discriminate.
  - apply (bool_decide_unpack _). vm_compute. reflexivity.
Defined.

(** ** Service Performance Aggregator *)

Lemma foldr_max_spec d ds :
  let m := foldr Z.max d ds in
  m ∈ d :: ds ∧ ∀ x, x ∈ d :: ds → x ≤ m.
Proof.
  induction ds as [|y ds [IHin IHle]]; simpl.
  - split; [by left|]. intros x Hx. apply list_elem_of_singleton in Hx. lia.
  - split.
    + destruct (Z.max_spec y (foldr Z.max d ds)) as [[_ ->]|[_ ->]].
      * apply elem_of_cons in IHin as [->|?]; [by left|by do 2 right].
      * right. by left.
    + intros x Hx. apply elem_of_cons in Hx as [->|Hx].
      * specialize (IHle d ltac:(by left)). lia.
      * apply elem_of_cons in Hx as [->|Hx]; [lia|].
        specialize (IHle x ltac:(by right)). lia.
Qed.

Lemma foldr_min_spec d ds :
  let m := foldr Z.min d ds in
  m ∈ d :: ds ∧ ∀ x, x ∈ d :: ds → m ≤ x.
Proof.
  induction ds as [|y ds [IHin IHle]]; simpl.
  - split; [by left|]. intros x Hx. apply list_elem_of_singleton in Hx. lia.
  - split.
    + destruct (Z.min_spec y (foldr Z.min d ds)) as [[_ ->]|[_ ->]].
      * right. by left.
      * apply elem_of_cons in IHin as [->|?]; [by left|by do 2 right].
    + intros x Hx. apply elem_of_cons in Hx as [->|Hx].
      * specialize (IHle d ltac:(by left)). lia.
      * apply elem_of_cons in Hx as [->|Hx]; [lia|].
        specialize (IHle x ltac:(by right)). lia.
Qed.

Lemma sql_max_spec g :
  match sql_max g with
  | Some m => m ∈ durations g ∧ ∀ d, d ∈ durations g → d ≤ m
  | None => durations g = []
  end.
Proof.
  unfold sql_max. destruct (durations g) as [|d ds]; [done|].
  apply foldr_max_spec.
Qed.

Lemma sql_min_spec g :
  match sql_min g with
  | Some m => m ∈ durations g ∧ ∀ d, d ∈ durations g → m ≤ d
  | None => durations g = []
  end.
Proof.
  unfold sql_min. destruct (durations g) as [|d ds]; [done|].
  apply foldr_min_spec.
Qed.

Lemma sql_avg_spec g :
  match sql_avg g with
  | Some a =>
      durations g ≠ [] ∧
      a = (Qc_of_Z (sum_list_Z (durations g))
           / Qc_of_Z (Z.of_nat (length (durations g))))%Qc
  | None => durations g = []
  end.
Proof. unfold sql_avg. by destruct (durations g). Qed.

Lemma elem_of_all_spans db s :
  s ∈ all_spans db ↔ ∃ sid, spans db !! sid = Some s.
Proof.
  unfold all_spans. rewrite list_elem_of_fmap. split.
  - intros ([sid s'] & -> & Hel). exists sid. by apply elem_of_map_to_list.
  - intros [sid Hs]. exists (sid, s). split; [done|].
    by apply elem_of_map_to_list.
Qed.

Lemma service_rows_names db :
  ServiceRow.service_name <$> service_rows db =
  remove_dups (Span.service_name <$> all_spans db).
Proof.
  unfold service_rows. rewrite <- list_fmap_compose.
  induction (remove_dups _) as [|x l IH]; [done|]. simpl. by f_equal.
Qed.

Lemma elem_of_service_rows db row :
  row ∈ service_rows db →
  let g := spans_of_service db (ServiceRow.service_name row) in
  row = ServiceRow.mk (ServiceRow.service_name row) (sql_count g) (sql_avg g)
          (sql_max g) (sql_min g).
Proof.
  unfold service_rows. intros Hel.
  apply list_elem_of_fmap in Hel as (name & -> & _). done.
Qed.

#[local] Instance avg_desc_trans : Transitive avg_desc.
Proof.
  intros a b c. unfold avg_desc.
  destruct (ServiceRow.avg_duration a), (ServiceRow.avg_duration b),
    (ServiceRow.avg_duration c); try done.
  intros H1 H2. by etrans.
Qed.

#[local] Instance avg_desc_total : Total avg_desc.
Proof.
  intros a b. unfold avg_desc.
  destruct (ServiceRow.avg_duration a) as [x|],
    (ServiceRow.avg_duration b) as [y|]; auto.
  destruct (Qclt_le_dec x y) as [Hlt|Hle]; [right|by left].
  by apply Qclt_le_weak.
Qed.

Lemma fetch_service_performance_sorted_ok db :
  fetch_service_performance db (fetch_service_performance_sorted db).
Proof.
  split; [apply merge_sort_Permutation|apply Sorted_merge_sort, _].
Qed.

Lemma service_loop_ok rows self :
  Forall (λ row, is_Some (ServiceRow.avg_duration row) ∧
                 is_Some (ServiceRow.max_duration row) ∧
                 is_Some (ServiceRow.min_duration row)) rows →
  service_loop rows self = mkRun (rows ≫= service_lines) (Returned tt) self.
Proof.
  induction 1 as [|row rest ([a Ha] & [mx Hmx] & [mn Hmn]) _ IH]; [done|].
  destruct row as [name c avg max_dur min_dur]. simpl in Ha, Hmx, Hmn.
  subst avg max_dur min_dur.
  cbn [service_loop]. run_py. by rewrite IH.
Qed.

Lemma service_rows_recorded db row :
  (∀ sid s, spans db !! sid = Some s → is_Some (Span.duration_ms s)) →
  row ∈ service_rows db →
  is_Some (ServiceRow.avg_duration row) ∧
  is_Some (ServiceRow.max_duration row) ∧
  is_Some (ServiceRow.min_duration row).
Proof.
  intros Hrec Hrow.
  assert (Hname : ServiceRow.service_name row
                  ∈ ServiceRow.service_name <$> service_rows db)
    by by apply list_elem_of_fmap_2.
  rewrite service_rows_names, elem_of_remove_dups in Hname.
  apply list_elem_of_fmap in Hname as (s & Hs & Hel).
  assert (Hne : durations (spans_of_service db (ServiceRow.service_name row)) ≠ []).
  { pose proof Hel as [sid Hsid]%elem_of_all_spans.
    destruct (Hrec _ _ Hsid) as [d Hd].
    assert (d ∈ durations (spans_of_service db (ServiceRow.service_name row))).
    { apply list_elem_of_omap. exists s. split; [|done].
      apply list_elem_of_filter. by split. }
    intros Hnil. rewrite Hnil in H. by apply elem_of_nil in H. }
  rewrite (elem_of_service_rows db row Hrow). simpl.
  pose proof (sql_avg_spec (spans_of_service db (ServiceRow.service_name row))).
  pose proof (sql_max_spec (spans_of_service db (ServiceRow.service_name row))).
  pose proof (sql_min_spec (spans_of_service db (ServiceRow.service_name row))).
  destruct (sql_avg _), (sql_max _), (sql_min _); naive_solver.
Qed.

(** C3, counterexample.  Two services with the same average duration:
    the listing with ["billing"] before ["auth"] descends in average
    duration, so the query may return it, and it does not break the tie
    by ascending service name. *)
Lemma service_performance_tie_not_by_name :
  let self := exec [(env_at "t1" 0 0, Start_trace "api-gateway" "create_order");
                    (env_at "s1" 10 10, Create_span "t1" "auth" "login" None);
                    (env_at "s2" 20 20, Create_span "t1" "billing" "charge" None);
                    (env_at "" 10010 10010, End_span "s1" (Some "SELECT 1") 1 "success");
                    (env_at "" 10020 10020, End_span "s2" (Some "SELECT 2") 1 "success")]
                   init in
  let rows := [ServiceRow.mk "billing" 1 (Some (Qc_of_Z 1000)) (Some 1000) (Some 1000);
               ServiceRow.mk "auth" 1 (Some (Qc_of_Z 1000)) (Some 1000) (Some 1000)] in
  fetch_service_performance (conn self) rows ∧
  get_service_performance rows self =
    mkRun [Out_banner "SERVICE PERFORMANCE SUMMARY";
           Out_service "billing"; Out_service_count 1;
           Out_service_avg (Qc_of_Z 1000); Out_service_max 1000;
           Out_service_min 1000;
           Out_service "auth"; Out_service_count 1;
           Out_service_avg (Qc_of_Z 1000); Out_service_max 1000;
           Out_service_min 1000; Out_rule]
      (Returned tt) self ∧
  ¬ ties_by_name rows.
Proof.
  intros self rows. split; [|split].
  - apply (bool_decide_unpack _). by vm_compute.
  - reflexivity.
  - intros Hties.
    specialize (Hties 0%nat 1%nat _ _ eq_refl eq_refl ltac:(lia) eq_refl).
    by vm_compute in Hties.
Qed.

(** C3, amended.  Every answer of the query has one row per distinct
    service name of the span population; the row of a service holds the
    number of its spans, and the average, the maximum and the minimum of
    the recorded durations of its spans over all traces (null when none of
    its spans has a duration); the rows descend in average duration, rows
    with a null average first.  The order among rows of equal average is
    whatever the database returns: no tie-break by service name.  When
    every span has a duration, [get_service_performance] prints the rows
    in the order of the answer and returns. *)
Theorem service_performance_rows db rows :
  fetch_service_performance db rows →
  NoDup (ServiceRow.service_name <$> rows) ∧
  (∀ name,
     name ∈ ServiceRow.service_name <$> rows ↔
     ∃ sid s, spans db !! sid = Some s ∧ Span.service_name s = name) ∧
  (∀ row, row ∈ rows →
     let g := spans_of_service db (ServiceRow.service_name row) in
     (∀ s, s ∈ g ↔ (∃ sid, spans db !! sid = Some s) ∧
                   Span.service_name s = ServiceRow.service_name row) ∧
     ServiceRow.span_count row = Z.of_nat (length g) ∧
     match ServiceRow.avg_duration row with
     | Some a =>
         durations g ≠ [] ∧
         a = (Qc_of_Z (sum_list_Z (durations g))
              / Qc_of_Z (Z.of_nat (length (durations g))))%Qc
     | None => durations g = []
     end ∧
     match ServiceRow.max_duration row with
     | Some m => m ∈ durations g ∧ ∀ d, d ∈ durations g → d ≤ m
     | None => durations g = []
     end ∧
     match ServiceRow.min_duration row with
     | Some m => m ∈ durations g ∧ ∀ d, d ∈ durations g → m ≤ d
     | None => durations g = []
     end) ∧
  (∀ (i j : nat) a b,
     rows !! i = Some a → rows !! j = Some b → (i < j)%nat → avg_desc a b) ∧
  ((∀ sid s, spans db !! sid = Some s → is_Some (Span.duration_ms s)) →
   ∀ self,
     get_service_performance rows self =
     mkRun (Out_banner "SERVICE PERFORMANCE SUMMARY"
              :: (rows ≫= service_lines) ++ [Out_rule])
       (Returned tt) self).
Proof.
  intros [Hperm Hsorted]. split; [|split; [|split; [|split]]].
  - rewrite Hperm, service_rows_names. apply NoDup_remove_dups.
  - intros name. rewrite Hperm, service_rows_names, elem_of_remove_dups.
    rewrite list_elem_of_fmap. split.
    + intros (s & -> & [sid Hs]%elem_of_all_spans). eauto.
    + intros (sid & s & Hs & <-). exists s. split; [done|].
      apply elem_of_all_spans. eauto.
  - intros row Hrow g. rewrite Hperm in Hrow.
    pose proof (elem_of_service_rows db row Hrow) as Heq. fold g in Heq.
    split.
    { intros s. unfold g, spans_of_service.
      rewrite list_elem_of_filter, elem_of_all_spans. tauto. }
    rewrite Heq. simpl. split; [done|].
    split; [apply sql_avg_spec|]. split; [apply sql_max_spec|apply sql_min_spec].
  - intros i j a b Hi Hj Hij.
    apply (Sorted_StronglySorted _) in Hsorted.
    by apply (StronglySorted_lookup_lt _ _ Hsorted i j).
  - intros Hrec self. unfold get_service_performance. run_py.
    rewrite service_loop_ok; [done|].
    apply Forall_lookup. intros i row Hi.
    apply (service_rows_recorded db row Hrec). rewrite <- Hperm.
    apply list_elem_of_lookup. eauto.
Qed.

Lemma service_performance_rows_witness :
  let self := exec [(env_at "t1" 0 0, Start_trace "api-gateway" "create_order");
                    (env_at "s1" 0 0, Create_span "t1" "X" "a" None);
                    (env_at "s2" 20 20, Create_span "t1" "Y" "b" None);
                    (env_at "" 100 100, End_span "s1" None 0 "success");
                    (env_at "s3" 200 200, Create_span "t1" "X" "c" None);
                    (env_at "" 500 500, End_span "s3" None 0 "success");
                    (env_at "" 520 520, End_span "s2" None 0 "success")]
                   init in
  let rows := [ServiceRow.mk "Y" 1 (Some (Qc_of_Z 50)) (Some 50) (Some 50);
               ServiceRow.mk "X" 2 (Some (Qc_of_Z 20)) (Some 30) (Some 10)] in
  fetch_service_performance (conn self) rows ∧
  NoDup (ServiceRow.service_name <$> rows) ∧
  get_service_performance rows self =
    mkRun (Out_banner "SERVICE PERFORMANCE SUMMARY"
             :: (rows ≫= service_lines) ++ [Out_rule])
      (Returned tt) self.
Proof.
  intros self rows.
  assert (Hfetch : fetch_service_performance (conn self) rows)
    by (apply (bool_decide_unpack _); vm_compute; reflexivity).
  destruct (service_performance_rows (conn self) rows Hfetch)
    as (Hnodup & _ & _ & _ & Hprint).
  split; [exact Hfetch|]. split; [exact Hnodup|].
  apply Hprint. intros sid s Hs.
  assert (Hel : s ∈ all_spans (conn self)) by (apply elem_of_all_spans; eauto).
  vm_compute in Hel.
  repeat (apply elem_of_cons in Hel as [->|Hel]; [by eexists|]).
  by apply elem_of_nil in Hel.
Defined.

(** * Further properties of the recorder *)

(** X1. [start_trace] never reuses an id: when the generated id already
    has a row in [traces] the call raises before anything is logged, and
    neither table nor [active_traces] changes; the exception is
    [IntegrityError] (the insert violates the primary key) when the id
    and the two names fit their columns, and [DataError] when one of them
    does not; and an id that [start_trace] returns had no row before the
    call. *)
Theorem start_trace_rejects_used_id env service_name operation_name self :
  let run := start_trace env service_name operation_name self in
  (is_Some (traces (conn self) !! uuid4 env) →
   (id_fits (uuid4 env) = true ∧ is_Some (to_varchar 100 service_name) ∧
    is_Some (to_varchar 100 operation_name) →
    run = mkRun [] (Raised IntegrityError) self) ∧
   (id_fits (uuid4 env) = false ∨ to_varchar 100 service_name = None ∨
    to_varchar 100 operation_name = None →
    run = mkRun [] (Raised DataError) self)) ∧
  (∀ trace_id, outcome run = Returned trace_id →
     trace_id = uuid4 env ∧ traces (conn self) !! trace_id = None ∧
     is_Some (traces (conn (self_after run)) !! trace_id) ∧
     is_Some (active_traces (self_after run) !! trace_id)).
Proof.
  intros run. subst run. split.
  - intros Hrow. split.
    + intros (Hid & Hs & Ho). by apply start_trace_taken.
    + apply start_trace_too_long.
  - intros trace_id Hret.
    destruct (start_trace_cases env service_name operation_name self)
      as [[e Hrun]|(sv & op & _ & _ & E & Hrun)];
      rewrite Hrun in Hret |- *; simpl in *; [discriminate|].
    injection Hret as <-. rewrite !lookup_insert_eq. eauto.
Qed.

Lemma start_trace_rejects_used_id_witness :
  let self := exec [(env_at "t1" 0 0, Start_trace "api-gateway" "create_order")]
                   init in
  start_trace (env_at "t1" 5 5) "user-service" "login" self =
  mkRun [] (Raised IntegrityError) self.
Proof.
  intros self.
  apply (proj1 (proj1 (start_trace_rejects_used_id (env_at "t1" 5 5)
                         "user-service" "login" self)
                  ltac:(vm_compute; eauto))).
  vm_compute. eauto.
Defined.

Lemma to_ms_mono a b : a ≤ b → to_ms a ≤ to_ms b.
Proof.
  intros H. unfold to_ms.
  destruct (Z.leb_spec 0 a), (Z.leb_spec 0 b); try lia.
  - apply Z.div_le_mono; lia.
  - assert (0 ≤ (- a + 5) / 10) by (apply Z.div_pos; lia).
    assert (0 ≤ (b + 5) / 10) by (apply Z.div_pos; lia). lia.
  - assert ((- b + 5) / 10 ≤ (- a + 5) / 10) by (apply Z.div_le_mono; lia).
    lia.
Qed.

Lemma to_ms_error us : -5 ≤ 10 * to_ms us - us ≤ 5.
Proof.
  unfold to_ms. destruct (Z.leb_spec 0 us).
  - pose proof (Z.div_mod (us + 5) 10 ltac:(lia)).
    pose proof (Z.mod_pos_bound (us + 5) 10 ltac:(lia)). lia.
  - pose proof (Z.div_mod (- us + 5) 10 ltac:(lia)).
    pose proof (Z.mod_pos_bound (- us + 5) 10 ltac:(lia)). lia.
Qed.



(** X3. [create_span] checks the columns and the two keys and nothing
    else.  When the id, the trace id, the parent id and the two names fit
    their columns, it returns the new id and inserts an [in_progress]
    span without end, duration, descriptor and affected count exactly
    when the trace id has a row in [traces] and the generated id is
    unused, whether or not the trace is still open and whether or not the
    parent is a span; with a key that fails it raises [IntegrityError].
    When a value does not fit its column it raises [DataError].  In all
    cases nothing is printed or logged, and [traces], [active_traces] and
    the other spans are untouched. *)
Theorem create_span_checks_columns_and_keys env trace_id service_name
    operation_name parent_span_id self :
  let run := create_span env trace_id service_name operation_name
               parent_span_id self in
  (∀ trace parent service operation,
     id_fits (uuid4 env) = true →
     to_varchar 36 trace_id = Some trace →
     to_varchar_null 36 parent_span_id = Some parent →
     to_varchar 100 service_name = Some service →
     to_varchar 100 operation_name = Some operation →
     (is_Some (traces (conn self) !! trace) ∧
      spans (conn self) !! uuid4 env = None →
      outcome run = Returned (uuid4 env) ∧
      spans (conn (self_after run)) =
        <[uuid4 env := Span.mk trace parent service operation (now env)
                         None None None None "in_progress"]>
          (spans (conn self))) ∧
     (traces (conn self) !! trace = None ∨
      is_Some (spans (conn self) !! uuid4 env) →
      outcome run = Raised IntegrityError ∧ self_after run = self)) ∧
  (id_fits (uuid4 env) = false ∨ to_varchar 36 trace_id = None ∨
   to_varchar_null 36 parent_span_id = None ∨
   to_varchar 100 service_name = None ∨
   to_varchar 100 operation_name = None →
   outcome run = Raised DataError ∧ self_after run = self) ∧
  output run = [] ∧
  traces (conn (self_after run)) = traces (conn self) ∧
  active_traces (self_after run) = active_traces self.
Proof.
  intros run. subst run. split; [|split].
  - intros trace parent service operation Hid Ht Hp Hs Ho. split.
    + intros [Hrow Hfresh].
      by rewrite (create_span_ok _ _ _ _ _ _ trace parent service operation).
    + intros Hfail. rewrite (create_span_fail _ _ _ _ _ _ trace);
        rewrite ?Hp, ?Hs, ?Ho; eauto.
  - intros Hbad. by rewrite create_span_too_long.
  - destruct (create_span_cases env trace_id service_name operation_name
                parent_span_id self)
      as [[e ->]|(?&?&?&?&_&_&_&_&_&_& ->)]; done.
Qed.

Lemma create_span_checks_columns_and_keys_witness :
  let self := exec [(env_at "t1" 0 0, Start_trace "api-gateway" "create_order");
                    (env_at "" 50 50, End_trace "t1" "success")] init in
  outcome (create_span (env_at "s1" 90 90) "t1" "user-service" "login"
             (Some "no-such-parent") self) = Returned "s1" ∧
  outcome (create_span (env_at "s1" 90 90) "t2" "user-service" "login"
             None self) = Raised IntegrityError ∧
  outcome (create_span (env_at "s1" 90 90) "t1" "user-service" "login"
             (Some "a-parent-span-id-of-thirty-seven-char") self) =
    Raised DataError.
Proof.
  intros self. split; [|split].
  - apply (proj1 (proj1 (create_span_checks_columns_and_keys
                           (env_at "s1" 90 90) "t1" "user-service" "login"
                           (Some "no-such-parent") self)
                    "t1" (Some "no-such-parent") "user-service" "login"
                    eq_refl eq_refl eq_refl eq_refl eq_refl)).
    vm_compute. eauto.
  - apply (proj2 (proj1 (create_span_checks_columns_and_keys
                           (env_at "s1" 90 90) "t2" "user-service" "login"
                           None self)
                    "t2" None "user-service" "login"
                    eq_refl eq_refl eq_refl eq_refl eq_refl)).
    left. vm_compute. reflexivity.
  - apply (proj1 (proj2 (create_span_checks_columns_and_keys
                           (env_at "s1" 90 90) "t1" "user-service" "login"
                           (Some "a-parent-span-id-of-thirty-seven-char")
                           self))).
    right. right. left. vm_compute. reflexivity.
Defined.

(** X4. Creating a span and ending it is a round trip: after
    [create_span] on an existing trace with an unused id and values that
    fit their columns, [end_span] on the returned id with a status, a
    count and a duration that fit theirs returns and leaves the span with
    the linkage and names given at creation, the start of creation, the
    end of the second call, the duration between the two readings of
    [NOW()] (not negative when the database clock did not run backwards),
    and the descriptor, count and status of [end_span]; [traces] and
    [active_traces] are as before. *)
Theorem create_end_span_round_trip env1 env2 trace_id service_name
    operation_name parent_span_id query rows_affected status self
    trace parent service operation st :
  id_fits (uuid4 env1) = true →
  to_varchar 36 trace_id = Some trace →
  to_varchar_null 36 parent_span_id = Some parent →
  to_varchar 100 service_name = Some service →
  to_varchar 100 operation_name = Some operation →
  is_Some (traces (conn self) !! trace) →
  spans (conn self) !! uuid4 env1 = None →
  to_varchar 20 status = Some st →
  fits_int rows_affected = true →
  fits_decimal (to_ms (now env2 - now env1)) = true →
  let created := create_span env1 trace_id service_name operation_name
                   parent_span_id self in
  let ended := end_span env2 (uuid4 env1) query rows_affected status
                 (self_after created) in
  outcome created = Returned (uuid4 env1) ∧
  outcome ended = Returned tt ∧
  spans (conn (self_after ended)) =
    <[uuid4 env1 := Span.mk trace parent service operation (now env1)
                      (Some (now env2)) (Some (to_ms (now env2 - now env1)))
                      query (Some rows_affected) st]> (spans (conn self)) ∧
  traces (conn (self_after ended)) = traces (conn self) ∧
  active_traces (self_after ended) = active_traces self ∧
  (now env1 ≤ now env2 → 0 ≤ to_ms (now env2 - now env1)).
Proof.
  intros Hid Ht Hp Hs Ho Hrow Hfresh Hst Hn Hd created ended.
  subst created ended.
  rewrite (create_span_ok _ _ _ _ _ _ trace parent service operation) by done.
  simpl self_after.
  erewrite end_span_present;
    [|exact Hst|exact Hn|simpl; apply lookup_insert_eq|exact Hd].
  simpl. rewrite alter_insert_eq. repeat split; try done.
  intros Hle. apply to_ms_nonneg. lia.
Qed.

Lemma create_end_span_round_trip_witness :
  let self := exec [(env_at "t1" 0 0, Start_trace "api-gateway" "create_order")]
                   init in
  spans (conn (self_after
     (end_span (env_at "" 0 50010) "s1" (Some "SELECT 1") 1 "success"
        (self_after (create_span (env_at "s1" 0 10) "t1" "user-service"
                       "validate_user" None self))))) !! "s1" =
  Some (Span.mk "t1" None "user-service" "validate_user" 10 (Some 50010)
          (Some 5000) (Some "SELECT 1") (Some 1) "success").
Proof.
  intros self.
  destruct (create_end_span_round_trip (env_at "s1" 0 10) (env_at "" 0 50010)
              "t1" "user-service" "validate_user" None (Some "SELECT 1") 1
              "success" self "t1" None "user-service" "validate_user"
              "success") as (_ & _ & Hsp & _).
  1-5, 7-10: vm_compute; reflexivity.
  - vm_compute. eauto.
  - simpl uuid4 in Hsp. rewrite Hsp. apply lookup_insert_eq.
Defined.

(** ** Invariants of the two tables *)

Lemma spans_timed_call clk env c self :
  spans_timed clk self → clk ≤ now env →
  spans_timed (now env) (self_after (call env c self)).
Proof.
  intros Ht Hle sid s' Hs'.
  destruct (call_span_row_inv _ _ _ _ _ Hs')
    as [Hs|[(_ & Hstart & Hend)|(s & Hs & Hstart & Hend)]].
  - destruct (Ht _ _ Hs) as [H1 H2]. split; [lia|].
    intros e He. specialize (H2 e He). lia.
  - rewrite Hstart, Hend. split; [lia|done].
  - destruct (Ht _ _ Hs) as [H1 _]. rewrite Hstart, Hend. split; [lia|].
    intros e [= <-]. lia.
Qed.

Lemma spans_timed_exec cs : ∀ clk self,
  spans_timed clk self →
  Forall (λ ec, clk ≤ now ec.1) cs →
  clocks_ascend cs →
  ∃ clk', spans_timed clk' (exec cs self).
Proof.
  induction cs as [|[env c] cs IH]; intros clk self Ht Hge Hs; simpl.
  - by exists clk.
  - apply Forall_cons_1 in Hge as [H1 _].
    unfold clocks_ascend in Hs. apply StronglySorted_inv in Hs as [Hs Hhd].
    apply (IH (now env)); [by apply (spans_timed_call clk)| |done].
    eapply Forall_lookup. intros i ec Hi.
    by destruct (Forall_lookup_1 _ _ _ _ Hhd Hi).
Qed.

Lemma reachable_spans_timed cs :
  clocks_ascend cs → ∃ clk, spans_timed clk (exec cs init).
Proof.
  intros Hs. destruct cs as [|[env c] cs].
  - exists 0. intros sid s H. simpl in H. by rewrite lookup_empty in H.
  - apply (spans_timed_exec _ (now env)); [| |done].
    + intros sid s H. simpl in H. by rewrite lookup_empty in H.
    + unfold clocks_ascend in Hs. apply StronglySorted_inv in Hs as [_ Hhd].
      constructor; [simpl; lia|].
      eapply Forall_lookup. intros i ec Hi.
      by destruct (Forall_lookup_1 _ _ _ _ Hhd Hi).
Qed.

(** X5. Referential integrity and the shape of a span, in every state the
    recorder reaches from a fresh one: a span references a trace that has
    a row; a span that was not ended has no duration, descriptor or
    affected count and is [in_progress]; an ended span has an affected
    count and its duration is the stored end minus the stored start, in
    hundredths of a millisecond, at most half a hundredth off. *)
Theorem span_rows_well_formed cs sid s :
  spans (conn (exec cs init)) !! sid = Some s →
  is_Some (traces (conn (exec cs init)) !! Span.trace_id s) ∧
  match Span.end_time s with
  | None =>
      Span.duration_ms s = None ∧ Span.db_query s = None ∧
      Span.rows_affected s = None ∧ Span.status s = "in_progress"
  | Some e =>
      is_Some (Span.rows_affected s) ∧
      ∃ d, Span.duration_ms s = Some d ∧
           d = to_ms (e - Span.start_time s) ∧
           -5 ≤ 10 * d - (e - Span.start_time s) ≤ 5
  end.
Proof.
  intros Hs. destruct (reachable_well_formed cs) as (_ & _ & Hspan).
  destruct (Hspan _ _ Hs) as [Hfk Hshape]. split; [done|].
  destruct (Span.end_time s) as [e|]; [|done].
  destruct Hshape as [Hd Hrows]. split; [done|].
  eexists. split; [done|]. split; [done|]. apply to_ms_error.
Qed.

Lemma span_rows_well_formed_witness :
  let cs := [(env_at "t1" 0 0, Start_trace "api-gateway" "create_order");
             (env_at "s1" 0 10, Create_span "t1" "user-service" "validate_user" None);
             (env_at "" 0 50013, End_span "s1" (Some "SELECT 1") 1 "success")] in
  is_Some (traces (conn (exec cs init)) !! "t1") ∧
  is_Some (Some 1) ∧
  ∃ d, Some 5000 = Some d ∧ d = to_ms (50013 - 10) ∧
       -5 ≤ 10 * d - (50013 - 10) ≤ 5.
Proof.
  intros cs.
  refine (span_rows_well_formed cs "s1"
            (Span.mk "t1" None "user-service" "validate_user" 10 (Some 50013)
               (Some 5000) (Some "SELECT 1") (Some 1) "success") _).
  vm_compute. reflexivity.
Defined.

(** X6. While the database clock does not run backwards, no span ends
    before it starts and no span has a negative duration. *)
Theorem span_end_not_before_start cs sid s e :
  clocks_ascend cs →
  spans (conn (exec cs init)) !! sid = Some s →
  Span.end_time s = Some e →
  Span.start_time s ≤ e ∧ ∃ d, Span.duration_ms s = Some d ∧ 0 ≤ d.
Proof.
  intros Hasc Hs He.
  destruct (reachable_spans_timed cs Hasc) as [clk Ht].
  destruct (Ht _ _ Hs) as [_ Hend]. destruct (Hend e He) as [Hle _].
  split; [done|].
  destruct (reachable_well_formed cs) as (_ & _ & Hspan).
  destruct (Hspan _ _ Hs) as [_ Hshape]. rewrite He in Hshape.
  destruct Hshape as [Hd _]. eexists. split; [done|].
  apply to_ms_nonneg. lia.
Qed.

Lemma span_end_not_before_start_witness :
  let cs := [(env_at "t1" 0 0, Start_trace "api-gateway" "create_order");
             (env_at "s1" 0 10, Create_span "t1" "user-service" "validate_user" None);
             (env_at "" 0 50013, End_span "s1" (Some "SELECT 1") 1 "success")] in
  10 ≤ 50013 ∧ ∃ d, Some 5000 = Some d ∧ 0 ≤ d.
Proof.
  intros cs.
  refine (span_end_not_before_start cs "s1"
            (Span.mk "t1" None "user-service" "validate_user" 10 (Some 50013)
               (Some 5000) (Some "SELECT 1") (Some 1) "success") 50013 _ _ _).
  - vm_compute. repeat constructor; discriminate.
  - vm_compute. reflexivity.
  - reflexivity.
Defined.

(** X7. A span that lies inside another in time is not longer: of two
    ended spans, one that started no earlier and ended no later than the
    other has a duration that is not larger (so a parent that encloses
    its children is never beaten by them as the bottleneck). *)
Theorem enclosed_span_not_longer cs sid1 s1 e1 d1 sid2 s2 e2 d2 :
  spans (conn (exec cs init)) !! sid1 = Some s1 →
  spans (conn (exec cs init)) !! sid2 = Some s2 →
  Span.end_time s1 = Some e1 → Span.duration_ms s1 = Some d1 →
  Span.end_time s2 = Some e2 → Span.duration_ms s2 = Some d2 →
  Span.start_time s1 ≤ Span.start_time s2 → e2 ≤ e1 →
  d2 ≤ d1.
Proof.
  intros Hs1 Hs2 He1 Hd1 He2 Hd2 Hstart Hend.
  destruct (reachable_well_formed cs) as (_ & _ & Hspan).
  destruct (Hspan _ _ Hs1) as [_ H1]. destruct (Hspan _ _ Hs2) as [_ H2].
  rewrite He1 in H1. rewrite He2 in H2.
  destruct H1 as [H1 _]. destruct H2 as [H2 _].
  assert (d1 = to_ms (e1 - Span.start_time s1)) as -> by congruence.
  assert (d2 = to_ms (e2 - Span.start_time s2)) as -> by congruence.
  apply to_ms_mono. lia.
Qed.

Lemma enclosed_span_not_longer_witness :
  let cs := [(env_at "t1" 0 0, Start_trace "api-gateway" "create_order");
             (env_at "s3" 0 100, Create_span "t1" "order-service" "create_order" None);
             (env_at "s3a" 0 200, Create_span "t1" "order-service" "insert_order" (Some "s3"));
             (env_at "" 0 30200, End_span "s3a" (Some "INSERT") 1 "success");
             (env_at "" 0 70100, End_span "s3" None 0 "success")] in
  3000 ≤ 7000.
Proof.
  intros cs.
  refine (enclosed_span_not_longer cs
            "s3" (Span.mk "t1" None "order-service" "create_order" 100
                    (Some 70100) (Some 7000) None (Some 0) "success")
            70100 7000
            "s3a" (Span.mk "t1" (Some "s3") "order-service" "insert_order" 200
                     (Some 30200) (Some 3000) (Some "INSERT") (Some 1) "success")
            30200 3000 _ _ _ _ _ _ _ _);
    first [by vm_compute | simpl; lia].
Defined.

(** X8. In every state the recorder reaches from a fresh one the
    [metadata] column of every trace is null (no call writes it), and a
    trace that is still open has the status [in_progress]. *)
Theorem trace_metadata_never_written cs trace_id r :
  traces (conn (exec cs init)) !! trace_id = Some r →
  Trace.metadata r = None ∧
  (is_Some (active_traces (exec cs init) !! trace_id) →
   Trace.status r = "in_progress").
Proof.
  intros Hr. destruct (reachable_well_formed cs) as (Hopen & Hmeta & _).
  split; [by eapply Hmeta|].
  intros Hi. destruct (Hopen _ Hi) as (r' & Hr' & Hst & _). congruence.
Qed.

Lemma trace_metadata_never_written_witness :
  let cs := [(env_at "t1" 0 0, Start_trace "api-gateway" "create_order");
             (env_at "t2" 5 5, Start_trace "user-service" "login");
             (env_at "" 50 50, End_trace "t1" "error")] in
  (None : option string) = None ∧
  (is_Some (active_traces (exec cs init) !! "t2") → "in_progress" = "in_progress").
Proof.
  intros cs.
  refine (trace_metadata_never_written cs "t2"
            (Trace.mk "user-service" "login" 5 None None "in_progress" None) _).
  vm_compute. reflexivity.
Defined.

(** ** Rows over a sequence of calls *)

Lemma trace_evolves_refl r : trace_evolves r r.
Proof. unfold trace_evolves. naive_solver. Qed.

Lemma trace_evolves_trans r1 r2 r3 :
  trace_evolves r1 r2 → trace_evolves r2 r3 → trace_evolves r1 r3.
Proof.
  unfold trace_evolves. intros (?&?&?&?&?&?) (?&?&?&?&?&?).
  repeat split; try congruence; auto.
Qed.

Lemma span_evolves_refl s : span_evolves s s.
Proof. unfold span_evolves. naive_solver. Qed.

Lemma span_evolves_trans s1 s2 s3 :
  span_evolves s1 s2 → span_evolves s2 s3 → span_evolves s1 s3.
Proof.
  unfold span_evolves. intros (?&?&?&?&?&?&?) (?&?&?&?&?&?&?).
  repeat split; try congruence; auto.
Qed.

Lemma exec_trace_evolves cs : ∀ self trace_id r,
  traces (conn self) !! trace_id = Some r →
  ∃ r', traces (conn (exec cs self)) !! trace_id = Some r' ∧
        trace_evolves r r'.
Proof.
  induction cs as [|[env c] cs IH]; intros self trace_id r Hr; simpl.
  - exists r. split; [done|apply trace_evolves_refl].
  - destruct (call_trace_row env c self trace_id r Hr)
      as [H|(status & st & info & _ & _ & _ & _ & H)].
    + by apply IH.
    + destruct (IH _ _ _ H) as (r' & Hr' & Hev). exists r'. split; [done|].
      eapply trace_evolves_trans; [|exact Hev].
      unfold trace_evolves, close_trace. simpl. naive_solver.
Qed.

Lemma exec_span_evolves cs : ∀ self sid s,
  spans (conn self) !! sid = Some s →
  ∃ s', spans (conn (exec cs self)) !! sid = Some s' ∧ span_evolves s s'.
Proof.
  induction cs as [|[env c] cs IH]; intros self sid s Hs; simpl.
  - exists s. split; [done|apply span_evolves_refl].
  - destruct (call_span_row env c self sid s Hs)
      as [H|(query & rows_affected & status & st & _ & _ & H)].
    + by apply IH.
    + destruct (IH _ _ _ H) as (s' & Hs' & Hev). exists s'. split; [done|].
      eapply span_evolves_trans; [|exact Hev].
      unfold span_evolves, close_span. simpl. naive_solver.
Qed.

(** X9. No sequence of calls deletes a row or rewrites what was written
    at its creation: a trace keeps its service, operation, start
    timestamp and metadata, a span keeps its trace, parent, service,
    operation and start timestamp; and a row that has an end, or a
    duration, keeps having one (a trace or span is never reopened). *)
Theorem rows_are_kept cs self :
  (∀ trace_id r,
     traces (conn self) !! trace_id = Some r →
     ∃ r', traces (conn (exec cs self)) !! trace_id = Some r' ∧
           Trace.service_name r' = Trace.service_name r ∧
           Trace.operation_name r' = Trace.operation_name r ∧
           Trace.start_time r' = Trace.start_time r ∧
           Trace.metadata r' = Trace.metadata r ∧
           (is_Some (Trace.end_time r) → is_Some (Trace.end_time r')) ∧
           (is_Some (Trace.duration_ms r) → is_Some (Trace.duration_ms r'))) ∧
  (∀ span_id s,
     spans (conn self) !! span_id = Some s →
     ∃ s', spans (conn (exec cs self)) !! span_id = Some s' ∧
           Span.trace_id s' = Span.trace_id s ∧
           Span.parent_span_id s' = Span.parent_span_id s ∧
           Span.service_name s' = Span.service_name s ∧
           Span.operation_name s' = Span.operation_name s ∧
           Span.start_time s' = Span.start_time s ∧
           (is_Some (Span.end_time s) → is_Some (Span.end_time s')) ∧
           (is_Some (Span.duration_ms s) → is_Some (Span.duration_ms s'))).
Proof.
  split.
  - intros trace_id r Hr.
    destruct (exec_trace_evolves cs self trace_id r Hr) as (r' & Hr' & Hev).
    by exists r'.
  - intros span_id s Hs.
    destruct (exec_span_evolves cs self span_id s Hs) as (s' & Hs' & Hev).
    by exists s'.
Qed.

Lemma rows_are_kept_witness :
  let self := exec [(env_at "t1" 0 0, Start_trace "api-gateway" "create_order");
                    (env_at "s1" 0 10, Create_span "t1" "user-service" "validate_user" None)]
                   init in
  let cs := [(env_at "" 70 70, End_span "s1" None 0 "success");
             (env_at "" 90 90, End_trace "t1" "success");
             (env_at "" 95 95, End_span "s1" (Some "SELECT 1") 1 "error")] in
  ∃ s', spans (conn (exec cs self)) !! "s1" = Some s' ∧
        Span.trace_id s' = "t1" ∧ Span.parent_span_id s' = None ∧
        Span.service_name s' = "user-service" ∧
        Span.operation_name s' = "validate_user" ∧
        Span.start_time s' = 10 ∧
        (is_Some (None : option Z) → is_Some (Span.end_time s')) ∧
        (is_Some (None : option Z) → is_Some (Span.duration_ms s')).
Proof.
  intros self cs.
  refine (proj2 (rows_are_kept cs self) "s1"
            (Span.mk "t1" None "user-service" "validate_user" 10 None None
               None None "in_progress") _).
  vm_compute. reflexivity.
Defined.

(** X10. Ids are not handed out twice: once [start_trace] has returned an
    id, no later [start_trace] returns it, whatever calls come between;
    and the same holds for the ids that [create_span] returns. *)
Theorem returned_ids_are_distinct cs self :
  (∀ env service_name operation_name env' service_name' operation_name'
     trace_id trace_id',
     let first := start_trace env service_name operation_name self in
     outcome first = Returned trace_id →
     outcome (start_trace env' service_name' operation_name'
                (exec cs (self_after first))) = Returned trace_id' →
     trace_id ≠ trace_id') ∧
  (∀ env t service_name operation_name parent env' t' service_name'
     operation_name' parent' span_id span_id',
     let first := create_span env t service_name operation_name parent self in
     outcome first = Returned span_id →
     outcome (create_span env' t' service_name' operation_name' parent'
                (exec cs (self_after first))) = Returned span_id' →
     span_id ≠ span_id').
Proof.
  split.
  - intros env sn on env' sn' on' tid tid' first H1 H2 ->.
    set (st := self_after first) in *. subst first.
    assert (Hrow : is_Some (traces (conn st) !! tid')).
    { unfold st.
      destruct (start_trace_cases env sn on self)
        as [[e Hrun]|(sv & op & _ & _ & E & Hrun)];
        rewrite Hrun in H1 |- *; simpl in *; [discriminate|].
      injection H1 as <-. rewrite lookup_insert_eq. eauto. }
    destruct Hrow as [r Hr].
    destruct (exec_trace_evolves cs st tid' r Hr) as (r' & Hr' & _).
    destruct (start_trace_cases env' sn' on' (exec cs st))
      as [[e Hrun]|(sv & op & _ & _ & E & Hrun)];
      rewrite Hrun in H2; simpl in H2; [discriminate|].
    injection H2 as H2. congruence.
  - intros env t sn on p env' t' sn' on' p' sid sid' first H1 H2 ->.
    set (st := self_after first) in *. subst first.
    assert (Hrow : is_Some (spans (conn st) !! sid')).
    { unfold st.
      destruct (create_span_cases env t sn on p self)
        as [[e Hrun]|(?&?&?&?&_&_&_&_&_&_& Hrun)];
        rewrite Hrun in H1 |- *; simpl in *; [discriminate|].
      injection H1 as <-. rewrite lookup_insert_eq. eauto. }
    destruct Hrow as [s Hsp].
    destruct (exec_span_evolves cs st sid' s Hsp) as (s' & Hs' & _).
    destruct (create_span_cases env' t' sn' on' p' (exec cs st))
      as [[e Hrun]|(?&?&?&?&_&_&_&_&_& Hfresh & Hrun)];
      rewrite Hrun in H2; simpl in H2; [discriminate|].
    injection H2 as H2. congruence.
Qed.

Lemma returned_ids_are_distinct_witness : "t1" ≠ "t2".
Proof.
  refine (proj1 (returned_ids_are_distinct
                   [(env_at "" 5 5, End_trace "t1" "success")] init)
            (env_at "t1" 0 0) "api-gateway" "create_order"
            (env_at "t2" 9 9) "user-service" "login" "t1" "t2" _ _);
    vm_compute; reflexivity.
Defined.

(** * Further properties of the analyzer *)

(** With every duration recorded the loop prints the lines of each span,
    in the order of the load. *)
Lemma span_loop_exact rows : ∀ total self,
  Forall (λ r, is_Some (SpanRow.duration_ms r)) rows →
  span_loop rows total self =
  mkRun (rows ≫= span_lines) (Returned (total + db_time_of rows)) self.
Proof.
  induction rows as [|row rest IH]; intros total self Hall.
  - simpl. run_py. unfold db_time_of. simpl. by rewrite Z.add_0_r.
  - apply Forall_cons_1 in Hall as [[d Hd] Hrest].
    rewrite db_time_of_cons. unfold span_lines, db_attributed.
    cbn [span_loop mbind list_bind]. run_py. rewrite Hd. simpl.
    destruct (truthy (SpanRow.db_query row)); simpl.
    + rewrite (IH (total + d) self Hrest). simpl. by rewrite Z.add_assoc.
    + by rewrite (IH total self Hrest).
Qed.

(** At the first span without duration the loop has printed the spans
    before it and the service and operation of that span, and raises. *)
Lemma span_loop_stops before row after : ∀ total self,
  Forall (λ r, is_Some (SpanRow.duration_ms r)) before →
  SpanRow.duration_ms row = None →
  span_loop (before ++ row :: after) total self =
  mkRun ((before ≫= span_lines) ++
         [Out_span_service (indent_of (SpanRow.parent_span_id row))
            (SpanRow.service_name row);
          Out_span_operation (indent_of (SpanRow.parent_span_id row))
            (SpanRow.operation_name row)])
    (Raised TypeError) self.
Proof.
  induction before as [|r rest IH]; intros total self Hall Hnull.
  - simpl. run_py. by rewrite Hnull.
  - apply Forall_cons_1 in Hall as [[d Hd] Hrest].
    unfold span_lines, db_attributed.
    cbn [app span_loop mbind list_bind]. run_py. rewrite Hd. simpl.
    destruct (truthy (SpanRow.db_query r)); simpl.
    + by rewrite (IH (total + d) self Hrest Hnull).
    + by rewrite (IH total self Hrest Hnull).
Qed.

Lemma first_open_span (rows : list SpanRow.t) :
  Exists (λ r, SpanRow.duration_ms r = None) rows →
  ∃ before row after,
    rows = before ++ row :: after ∧
    Forall (λ r, is_Some (SpanRow.duration_ms r)) before ∧
    SpanRow.duration_ms row = None.
Proof.
  induction rows as [|r rest IH]; intros Hex; [by apply Exists_nil in Hex|].
  destruct (SpanRow.duration_ms r) as [d|] eqn:Hd.
  - apply Exists_cons in Hex as [Hex|Hex]; [congruence|].
    destruct (IH Hex) as (before & row & after & -> & Hall & Hnull).
    exists (r :: before), row, after. split; [done|]. split; [|done].
    constructor; [by rewrite Hd|done].
  - exists [], r, rest. split; [done|]. split; [constructor|done].
Qed.

Lemma analyze_trace_complete_exact fetched trace_id self tr d :
  traces (conn self) !! trace_id = Some tr →
  Trace.duration_ms tr = Some d →
  Forall (λ r, is_Some (SpanRow.duration_ms r)) fetched →
  fetched ≠ [] →
  ∃ b k,
    py_max fetched self = mkRun [] (Returned b) self ∧
    SpanRow.duration_ms b = Some k ∧
    analyze_trace fetched trace_id self =
      mkRun (header_lines trace_id tr d (length fetched) ++
             (fetched ≫= span_lines) ++
             metrics_lines (db_time_of fetched) d ++
             slowest_lines (SpanRow.service_name b)
               (SpanRow.operation_name b) k)
        (Returned tt) self.
Proof.
  intros H Hd Hall Hne.
  destruct (py_max_first_max fetched self Hne Hall)
    as (i & b & k & Hi & Hk & Hmax & _).
  exists b, k. split; [done|]. split; [done|].
  pose proof (span_loop_exact fetched 0 self Hall) as Hloop.
  rewrite Z.add_0_l in Hloop.
  unfold analyze_trace. run_py. rewrite H, Hd. simpl.
  rewrite Hloop. simpl. rewrite Hmax. simpl. rewrite Hk. reflexivity.
Qed.

Lemma analyze_trace_open_span_exact before row after trace_id self tr d :
  traces (conn self) !! trace_id = Some tr →
  Trace.duration_ms tr = Some d →
  Forall (λ r, is_Some (SpanRow.duration_ms r)) before →
  SpanRow.duration_ms row = None →
  analyze_trace (before ++ row :: after) trace_id self =
    mkRun (header_lines trace_id tr d (length (before ++ row :: after)) ++
           (before ≫= span_lines) ++
           [Out_span_service (indent_of (SpanRow.parent_span_id row))
              (SpanRow.service_name row);
            Out_span_operation (indent_of (SpanRow.parent_span_id row))
              (SpanRow.operation_name row)])
      (Raised TypeError) self.
Proof.
  intros H Hd Hall Hnull.
  unfold analyze_trace. run_py. rewrite H, Hd. simpl.
  by rewrite (span_loop_stops before row after 0 self Hall Hnull).
Qed.

Lemma analyze_trace_outcome_cases fetched trace_id self :
  outcome (analyze_trace fetched trace_id self) =
    match traces (conn self) !! trace_id with
    | None => Returned tt
    | Some tr =>
        match Trace.duration_ms tr with
        | None => Raised TypeError
        | Some _ =>
            if decide (Forall (λ r, is_Some (SpanRow.duration_ms r)) fetched)
            then match fetched with
                 | [] => Raised ValueError
                 | _ :: _ => Returned tt
                 end
            else Raised TypeError
        end
    end.
Proof.
  destruct (traces (conn self) !! trace_id) as [tr|] eqn:H.
  2:{ by rewrite analyze_trace_not_found. }
  destruct (Trace.duration_ms tr) as [d|] eqn:Hd.
  2:{ by rewrite (analyze_trace_null_duration _ _ _ _ H Hd). }
  destruct (decide _) as [Hall|Hnot].
  - destruct fetched as [|row rest].
    + by rewrite (analyze_trace_empty _ _ _ _ H Hd).
    + destruct (analyze_trace_complete (row :: rest) _ _ _ _ H Hd Hall)
        as (lines & i & b & k & _ & _ & _ & _ & ->); done.
  - destruct (durations_recorded_or_not fetched) as [Hall|Hex]; [done|].
    by destruct (analyze_trace_null_span _ _ _ _ _ H Hd Hex)
      as (lines & -> & _).
Qed.

(** X11. When [analyze_trace] returns and when it raises: it returns
    normally when the trace has no row (after printing only "Trace not
    found") and when the trace has a duration, the load is not empty and
    every loaded span has a duration; it raises [ValueError] when the
    trace and all loaded spans have a duration but the load is empty; in
    every other case, a null duration of the trace or of a loaded span, it
    raises [TypeError]. *)
Theorem analyze_trace_outcome fetched trace_id self :
  outcome (analyze_trace fetched trace_id self) =
    match traces (conn self) !! trace_id with
    | None => Returned tt
    | Some tr =>
        match Trace.duration_ms tr with
        | None => Raised TypeError
        | Some _ =>
            if decide (Forall (λ r, is_Some (SpanRow.duration_ms r)) fetched)
            then match fetched with
                 | [] => Raised ValueError
                 | _ :: _ => Returned tt
                 end
            else Raised TypeError
        end
    end ∧
  (traces (conn self) !! trace_id = None →
   output (analyze_trace fetched trace_id self) = [Out_trace_not_found]).
Proof.
  split.
  - apply analyze_trace_outcome_cases.
  - intros H. by rewrite analyze_trace_not_found.
Qed.

Lemma analyze_trace_outcome_witness :
  output (analyze_trace [] "no-such-trace" init) = [Out_trace_not_found].
Proof.
  apply (proj2 (analyze_trace_outcome [] "no-such-trace" init)).
  reflexivity.
Defined.

(** X12. The analyzer and the aggregator only read: whatever they are
    given and whether they return or raise, [analyze_trace] and
    [get_service_performance] leave both tables and [active_traces] as
    they were. *)
Theorem analysis_is_read_only fetched trace_id rows self :
  self_after (analyze_trace fetched trace_id self) = self ∧
  self_after (get_service_performance rows self) = self.
Proof.
  split; [apply analyze_trace_pure|apply get_service_performance_pure].
Qed.

(** X13. The report of a complete run: for a trace with a duration whose
    load is not empty and has a duration for every span, [analyze_trace]
    prints the header with the number of loaded spans, then for every
    span in load order its service, operation and duration, its query
    and affected rows only when it is DB-attributed, and its status, at
    indent 2 for a span without parent and 4 for a span with one, then
    the metrics and the bottleneck (the span that [max] returns), and
    nothing else. *)
Theorem analyze_trace_report fetched trace_id self tr d :
  traces (conn self) !! trace_id = Some tr →
  Trace.duration_ms tr = Some d →
  Forall (λ r, is_Some (SpanRow.duration_ms r)) fetched →
  fetched ≠ [] →
  (∀ row, indent_of (SpanRow.parent_span_id row) =
          match SpanRow.parent_span_id row with
          | None | Some "" => 2%nat
          | Some _ => 4%nat
          end) ∧
  ∃ b k,
    py_max fetched self = mkRun [] (Returned b) self ∧
    SpanRow.duration_ms b = Some k ∧
    analyze_trace fetched trace_id self =
      mkRun (header_lines trace_id tr d (length fetched) ++
             (fetched ≫= span_lines) ++
             metrics_lines (db_time_of fetched) d ++
             slowest_lines (SpanRow.service_name b)
               (SpanRow.operation_name b) k)
        (Returned tt) self.
Proof.
  intros H Hd Hall Hne. split.
  { intros row. unfold indent_of, truthy.
    by destruct (SpanRow.parent_span_id row) as [[|??]|]. }
  by apply analyze_trace_complete_exact.
Qed.

Lemma analyze_trace_report_witness :
  let self := exec [(env_at "t1" 0 0, Start_trace "api-gateway" "create_order");
                    (env_at "s3" 0 100, Create_span "t1" "order-service" "create_order" None);
                    (env_at "s3a" 0 200, Create_span "t1" "order-service" "insert_order" (Some "s3"));
                    (env_at "" 0 30200, End_span "s3a" (Some "INSERT INTO orders VALUES (...)") 1 "success");
                    (env_at "" 0 70100, End_span "s3" None 0 "success");
                    (env_at "" 80000 80000, End_trace "t1" "success")] init in
  let fetched := select_row <$> fetch_spans_sorted (conn self) "t1" in
  output (analyze_trace fetched "t1" self) =
    [Out_banner "TRACE ANALYSIS"; Out_trace_id "t1";
     Out_operation "api-gateway" "create_order"; Out_total_duration 8000;
     Out_status "success"; Out_span_count 2;
     Out_span_service 2 "order-service"; Out_span_operation 2 "create_order";
     Out_span_duration 2 7000; Out_span_status 2 "success";
     Out_span_service 4 "order-service"; Out_span_operation 4 "insert_order";
     Out_span_duration 4 3000;
     Out_span_query 4 "INSERT INTO orders VALUES (...)";
     Out_span_rows 4 (Some 1); Out_span_status 4 "success";
     Out_banner "PERFORMANCE METRICS";
     Out_db_time 3000 (Qc_of_Z 3000 / Qc_of_Z 8000 * Qc_of_Z 100)%Qc;
     Out_non_db_time 5000
       (Qc_of_Z 100 - Qc_of_Z 3000 / Qc_of_Z 8000 * Qc_of_Z 100)%Qc;
     Out_slowest_header; Out_slowest_service "order-service";
     Out_slowest_operation "create_order"; Out_slowest_duration 7000;
     Out_rule].
Proof.
  intros self fetched.
  destruct (analyze_trace_report fetched "t1" self
              (Trace.mk "api-gateway" "create_order" 0 (Some 80000)
                 (Some 8000) "success" None) 8000)
    as (_ & b & k & Hmax & Hk & Hrun).
  - vm_compute. reflexivity.
  - reflexivity.
  - vm_compute. repeat constructor; by eexists.
  - vm_compute. discriminate.
  - vm_compute in Hmax. injection Hmax as <-.
    vm_compute in Hk. injection Hk as <-.
    rewrite Hrun. vm_compute. reflexivity.
Defined.

(** X14. A span that is still open stops the analysis: when a loaded span
    has no duration (and the trace has one), [analyze_trace] prints the
    header, the lines of the spans loaded before the first such span and
    the service and operation of that span, then raises [TypeError]; no
    metrics and no bottleneck are printed. *)
Theorem analyze_trace_stops_at_open_span fetched trace_id self tr d :
  traces (conn self) !! trace_id = Some tr →
  Trace.duration_ms tr = Some d →
  Exists (λ r, SpanRow.duration_ms r = None) fetched →
  ∃ before row after,
    fetched = before ++ row :: after ∧
    Forall (λ r, is_Some (SpanRow.duration_ms r)) before ∧
    SpanRow.duration_ms row = None ∧
    analyze_trace fetched trace_id self =
      mkRun (header_lines trace_id tr d (length fetched) ++
             (before ≫= span_lines) ++
             [Out_span_service (indent_of (SpanRow.parent_span_id row))
                (SpanRow.service_name row);
              Out_span_operation (indent_of (SpanRow.parent_span_id row))
                (SpanRow.operation_name row)])
        (Raised TypeError) self.
Proof.
  intros H Hd Hex.
  destruct (first_open_span fetched Hex)
    as (before & row & after & -> & Hall & Hnull).
  exists before, row, after. do 3 (split; [done|]).
  by apply analyze_trace_open_span_exact.
Qed.

Lemma analyze_trace_stops_at_open_span_witness :
  let self := exec [(env_at "t1" 0 0, Start_trace "api-gateway" "create_order");
                    (env_at "s1" 0 100, Create_span "t1" "user-service" "validate_user" None);
                    (env_at "" 80000 80000, End_trace "t1" "success")] init in
  let fetched := select_row <$> fetch_spans_sorted (conn self) "t1" in
  outcome (analyze_trace fetched "t1" self) = Raised TypeError.
Proof.
  intros self fetched.
  destruct (analyze_trace_stops_at_open_span fetched "t1" self
              (Trace.mk "api-gateway" "create_order" 0 (Some 80000)
                 (Some 8000) "success" None) 8000)
    as (before & row & after & _ & _ & _ & ->).
  - vm_compute. reflexivity.
  - reflexivity.
  - vm_compute. apply Exists_cons_hd. reflexivity.
  - reflexivity.
Defined.

(** ** Shares and averages *)

Lemma Qcdiv_mul_cancel (a n : Qc) : (0 < n)%Qc → (a / n * n = a)%Qc.
Proof.
  intros Hn. unfold Qcdiv. rewrite <- Qcmult_assoc, Qcmult_inv_l.
  - apply Qcmult_1_r.
  - intros ->. by apply Qclt_not_eq in Hn.
Qed.

Lemma Qcdiv_le_iff (a b n : Qc) : (0 < n)%Qc → (a / n ≤ b ↔ a ≤ b * n)%Qc.
Proof.
  intros Hn. rewrite (Qcmult_le_mono_pos_r (a / n) b n Hn).
  by rewrite Qcdiv_mul_cancel.
Qed.

Lemma Qcle_div_iff (a b n : Qc) : (0 < n)%Qc → (b ≤ a / n ↔ b * n ≤ a)%Qc.
Proof.
  intros Hn. rewrite (Qcmult_le_mono_pos_r b (a / n) n Hn).
  by rewrite Qcdiv_mul_cancel.
Qed.

Lemma Qc_of_Z_pos n : 0 < n → (0 < Qc_of_Z n)%Qc.
Proof. intros H. rewrite <- Z2Qc_inj_0. by apply (proj1 (Z2Qc_inj_lt 0 n)). Qed.

Lemma percentage_le_100 t d :
  0 < d → (percentage_of t d ≤ Qc_of_Z 100)%Qc ↔ t ≤ d.
Proof.
  intros Hd. unfold percentage_of.
  destruct (Z.ltb_spec 0 d) as [_|]; [|lia].
  rewrite <- (Qcmult_1_l (Qc_of_Z 100)) at 2.
  rewrite <- (Qcmult_le_mono_pos_r _ _ _ (Qc_of_Z_pos 100 ltac:(lia))).
  rewrite (Qcdiv_le_iff _ _ _ (Qc_of_Z_pos d Hd)), Qcmult_1_l.
  symmetry. apply (Z2Qc_inj_le t d).
Qed.

(** X15. The two lines of the metrics split the trace: whenever
    [analyze_trace] prints them, the DB time and the non-DB time add up to
    the duration of the trace and the two percentages add up to 100; and
    for a positive duration the non-DB time is negative exactly when the
    DB percentage exceeds 100, which happens when the DB-attributed spans
    together last longer than the trace. *)
Theorem analyze_trace_shares_add_up fetched trace_id self t p nd np :
  Out_db_time t p ∈ output (analyze_trace fetched trace_id self) →
  Out_non_db_time nd np ∈ output (analyze_trace fetched trace_id self) →
  ∃ tr d,
    traces (conn self) !! trace_id = Some tr ∧
    Trace.duration_ms tr = Some d ∧
    t + nd = d ∧ (p + np = Qc_of_Z 100)%Qc ∧
    (0 < d → (nd < 0 ↔ ¬ (p ≤ Qc_of_Z 100)%Qc) ∧ (nd < 0 ↔ d < t)).
Proof.
  intros Hdb Hnon.
  destruct (analyze_trace_db_time_inv _ _ _ _ _ Hdb)
    as (tr & d & H & Hd & Hall & -> & ->).
  exists tr, d. do 2 (split; [done|]).
  assert (nd = d - db_time_of fetched ∧
          np = (Qc_of_Z 100 - percentage_of (db_time_of fetched) d)%Qc)
    as [-> ->].
  { destruct fetched as [|row rest].
    - rewrite (analyze_trace_empty _ _ _ _ H Hd) in Hnon. simpl in Hnon.
      unfold db_time_of. simpl. set_unfold in Hnon. naive_solver.
    - destruct (analyze_trace_complete (row :: rest) _ _ _ _ H Hd Hall)
        as (lines & i & b & k & _ & _ & _ & Hl & Heq); [done|].
      rewrite Heq in Hnon. simpl in Hnon.
      pose proof (span_event_elem (Out_non_db_time nd np) lines Hl).
      set_unfold in Hnon. unfold slowest_lines in Hnon. set_unfold in Hnon.
      naive_solver. }
  split; [lia|]. split; [ring|].
  intros Hpos. rewrite (percentage_le_100 _ _ Hpos). lia.
Qed.

Lemma analyze_trace_shares_add_up_witness :
  let self := exec [(env_at "t1" 0 0, Start_trace "api-gateway" "create_order");
                    (env_at "s1" 0 0, Create_span "t1" "user-service" "validate_user" None);
                    (env_at "s2" 0 0, Create_span "t1" "inventory-service" "check_stock" None);
                    (env_at "" 0 60000, End_span "s1" (Some "SELECT 1") 1 "success");
                    (env_at "" 0 70000, End_span "s2" (Some "SELECT 2") 1 "success");
                    (env_at "" 80000 80000, End_trace "t1" "success")] init in
  let fetched := select_row <$> fetch_spans_sorted (conn self) "t1" in
  ∃ tr d,
    traces (conn self) !! "t1" = Some tr ∧ Trace.duration_ms tr = Some d ∧
    13000 + (-5000) = d ∧
    (Qc_of_Z 13000 / Qc_of_Z 8000 * Qc_of_Z 100 +
     (Qc_of_Z 100 - Qc_of_Z 13000 / Qc_of_Z 8000 * Qc_of_Z 100)
     = Qc_of_Z 100)%Qc ∧
    (0 < d →
     (-5000 < 0 ↔
      ¬ (Qc_of_Z 13000 / Qc_of_Z 8000 * Qc_of_Z 100 ≤ Qc_of_Z 100)%Qc) ∧
     (-5000 < 0 ↔ d < 13000)).
Proof.
  intros self fetched.
  apply (analyze_trace_shares_add_up fetched "t1" self);
    vm_compute; repeat constructor.
Defined.

(** ** Query excerpts *)

Lemma prefix_spec s : ∀ n,
  char_length (prefix n s) = Nat.min n (char_length s) ∧
  String.prefix (prefix n s) s = true ∧
  s = (prefix n s +:+ drop_chars n s) ∧
  starts_at_character (drop_chars n s) = true.
Proof.
  induction s as [|c s IH]; intros n; simpl.
  - by rewrite Nat.min_0_r.
  - destruct (is_continuation c) eqn:E.
    + destruct (IH n) as (Hlen & Hpre & Happ & Hrest). simpl. rewrite E.
      split; [done|]. split; [by destruct (Ascii.ascii_dec c c)|].
      split; [exact (f_equal (String c) Happ)|done].
    + destruct n as [|n]; simpl.
      * by rewrite E.
      * destruct (IH n) as (Hlen & Hpre & Happ & Hrest). rewrite E.
        split; [by rewrite Hlen|].
        split; [by destruct (Ascii.ascii_dec c c)|].
        split; [exact (f_equal (String c) Happ)|done].
Qed.

Lemma span_lines_query i q rows :
  Out_span_query i q ∈ rows ≫= span_lines →
  ∃ row full,
    row ∈ rows ∧ SpanRow.db_query row = Some full ∧ full ≠ "" ∧
    i = indent_of (SpanRow.parent_span_id row) ∧ q = prefix 60 full.
Proof.
  intros Hin. apply list_elem_of_bind in Hin as (row & Hin & Hrow).
  exists row. unfold span_lines, db_attributed, truthy in Hin.
  destruct (SpanRow.db_query row) as [[|c full]|] eqn:Hq;
    set_unfold in Hin; [naive_solver| |naive_solver].
  exists (String c full).
  destruct Hin as [?|[?|[?|[Heq|[?|[?|[]]]]]]]; try done.
  injection Heq as -> ->. done.
Qed.

(** X16. The query that [analyze_trace] prints for a span is an excerpt:
    every query line is the first 60 characters of the non-empty
    descriptor of a loaded span (the whole descriptor when it has no more
    than 60 characters), printed at the indent of that span.  Characters
    are code points, not bytes: the excerpt has [min 60 len(descriptor)]
    of them, and what it leaves out starts at a character. *)
Theorem analyze_trace_query_excerpt fetched trace_id self i q :
  Out_span_query i q ∈ output (analyze_trace fetched trace_id self) →
  ∃ row full,
    row ∈ fetched ∧ SpanRow.db_query row = Some full ∧ full ≠ "" ∧
    i = indent_of (SpanRow.parent_span_id row) ∧
    char_length q = Nat.min 60 (char_length full) ∧
    String.prefix q full = true ∧
    full = (q +:+ drop_chars 60 full) ∧
    starts_at_character (drop_chars 60 full) = true.
Proof.
  intros Hin.
  assert (∃ rows, (∀ r, r ∈ rows → r ∈ fetched) ∧
                  Out_span_query i q ∈ rows ≫= span_lines)
    as (rows & Hsub & Hq).
  { destruct (traces (conn self) !! trace_id) as [tr|] eqn:H.
    2:{ rewrite analyze_trace_not_found in Hin by done. simpl in Hin.
        set_unfold in Hin. naive_solver. }
    destruct (Trace.duration_ms tr) as [d|] eqn:Hd.
    2:{ rewrite (analyze_trace_null_duration _ _ _ _ H Hd) in Hin.
        simpl in Hin. set_unfold in Hin. naive_solver. }
    destruct (durations_recorded_or_not fetched) as [Hall|Hex].
    - destruct fetched as [|row rest].
      { rewrite (analyze_trace_empty _ _ _ _ H Hd) in Hin. simpl in Hin.
        set_unfold in Hin. naive_solver. }
      exists (row :: rest). split; [done|].
      destruct (analyze_trace_complete_exact (row :: rest) _ _ _ _ H Hd Hall)
        as (b' & k' & _ & _ & Hrun); [done|].
      rewrite Hrun in Hin.
      cbn [output] in Hin. unfold header_lines, metrics_lines, slowest_lines in Hin.
      rewrite !elem_of_app in Hin.
      destruct Hin as [Hin|[Hin|[Hin|Hin]]]; [|done| |];
        set_unfold in Hin; naive_solver.
    - destruct (first_open_span fetched Hex)
        as (before & row & after & -> & Hall & Hnull).
      exists before. split.
      { intros r Hr. apply elem_of_app. by left. }
      pose proof (analyze_trace_open_span_exact before row after _ _ _ _
                    H Hd Hall Hnull) as Hrun.
      rewrite Hrun in Hin. cbn [output] in Hin. unfold header_lines in Hin.
      rewrite !elem_of_app in Hin.
      destruct Hin as [Hin|[Hin|Hin]]; [|done|];
        set_unfold in Hin; naive_solver. }
  destruct (span_lines_query i q rows Hq)
    as (row & full & Hrow & Hfull & Hne & Hi & ->).
  exists row, full.
  destruct (prefix_spec full 60) as (Hlen & Hpre & Happ & Hrest).
  split; [by apply Hsub|]. by repeat split.
Qed.

Lemma analyze_trace_query_excerpt_witness :
  let query := "SELECT nom, prénom, société, créé_le FROM employés WHERE établissement = 7 AND actif" in
  let excerpt := "SELECT nom, prénom, société, créé_le FROM employés WHERE éta" in
  let self := exec [(env_at "t1" 0 0, Start_trace "api-gateway" "create_order");
                    (env_at "s1" 0 0, Create_span "t1" "user-service" "validate_user" None);
                    (env_at "" 0 60000, End_span "s1" (Some query) 1 "success");
                    (env_at "" 80000 80000, End_trace "t1" "success")] init in
  let fetched := select_row <$> fetch_spans_sorted (conn self) "t1" in
  String.length excerpt = 67%nat ∧
  ∃ row full,
    row ∈ fetched ∧ SpanRow.db_query row = Some full ∧ full ≠ "" ∧
    2%nat = indent_of (SpanRow.parent_span_id row) ∧
    char_length excerpt = Nat.min 60 (char_length full) ∧
    String.prefix excerpt full = true ∧
    full = (excerpt +:+ drop_chars 60 full) ∧
    starts_at_character (drop_chars 60 full) = true.
Proof.
  intros query excerpt self fetched. split; [reflexivity|].
  apply (analyze_trace_query_excerpt fetched "t1" self).
  vm_compute. repeat constructor.
Defined.

(** * Further properties of the aggregator *)

Lemma durations_nil_iff g :
  durations g = [] ↔ ∀ s, s ∈ g → Span.duration_ms s = None.
Proof.
  unfold durations. split.
  - intros Hnil s Hs. destruct (Span.duration_ms s) as [d|] eqn:Hd; [|done].
    assert (d ∈ omap Span.duration_ms g)
      by (apply list_elem_of_omap; eauto).
    rewrite Hnil in H. by apply elem_of_nil in H.
  - intros Hall. destruct (omap Span.duration_ms g) as [|d ds] eqn:E; [done|].
    assert (d ∈ omap Span.duration_ms g) by (rewrite E; left).
    apply list_elem_of_omap in H as (s & Hs & Hd).
    rewrite (Hall s Hs) in Hd. discriminate.
Qed.

Lemma service_row_elem db name :
  name ∈ Span.service_name <$> all_spans db →
  ServiceRow.mk name (sql_count (spans_of_service db name))
    (sql_avg (spans_of_service db name)) (sql_max (spans_of_service db name))
    (sql_min (spans_of_service db name)) ∈ service_rows db.
Proof.
  intros Hname. unfold service_rows.
  apply (list_elem_of_fmap_2
           (λ name, ServiceRow.mk name (sql_count (spans_of_service db name))
              (sql_avg (spans_of_service db name))
              (sql_max (spans_of_service db name))
              (sql_min (spans_of_service db name)))).
  by apply elem_of_remove_dups.
Qed.

Lemma null_average_first rows row :
  Sorted avg_desc rows → row ∈ rows →
  ServiceRow.avg_duration row = None →
  ∃ r0 rest, rows = r0 :: rest ∧ ServiceRow.avg_duration r0 = None.
Proof.
  intros Hsorted Hrow Hnull. destruct rows as [|r0 rest].
  { by apply elem_of_nil in Hrow. }
  exists r0, rest. split; [done|].
  apply elem_of_cons in Hrow as [<-|Hrow]; [done|].
  apply (Sorted_StronglySorted _) in Hsorted.
  apply StronglySorted_inv in Hsorted as [_ Hall].
  apply list_elem_of_lookup in Hrow as [i Hi].
  pose proof (Forall_lookup_1 _ _ _ _ Hall Hi) as Hdesc.
  unfold avg_desc in Hdesc. rewrite Hnull in Hdesc.
  by destruct (ServiceRow.avg_duration r0).
Qed.

Lemma null_average_raises rows row self :
  Sorted avg_desc rows → row ∈ rows →
  ServiceRow.avg_duration row = None →
  ∃ r0 rest,
    rows = r0 :: rest ∧ ServiceRow.avg_duration r0 = None ∧
    get_service_performance rows self =
      mkRun [Out_banner "SERVICE PERFORMANCE SUMMARY";
             Out_service (ServiceRow.service_name r0);
             Out_service_count (ServiceRow.span_count r0)]
        (Raised TypeError) self.
Proof.
  intros Hsorted Hrow Hnull.
  destruct (null_average_first rows _ Hsorted Hrow Hnull)
    as (r0 & rest & -> & Hnull0).
  exists r0, rest. split; [done|]. split; [done|].
  unfold get_service_performance. cbn [service_loop]. run_py.
  by rewrite Hnull0.
Qed.

(** X18. A service without any ended span breaks the summary: when some
    service has spans but none of them has a duration, its average is
    null, rows with a null average come first in every answer of the
    query, and [get_service_performance] prints the banner, the name and
    the span count of the first row and then raises [TypeError]. *)
Theorem get_service_performance_null_average db rows self name :
  fetch_service_performance db rows →
  (∃ sid s, spans db !! sid = Some s ∧ Span.service_name s = name) →
  (∀ sid s, spans db !! sid = Some s → Span.service_name s = name →
            Span.duration_ms s = None) →
  ∃ r0 rest,
    rows = r0 :: rest ∧ ServiceRow.avg_duration r0 = None ∧
    get_service_performance rows self =
      mkRun [Out_banner "SERVICE PERFORMANCE SUMMARY";
             Out_service (ServiceRow.service_name r0);
             Out_service_count (ServiceRow.span_count r0)]
        (Raised TypeError) self.
Proof.
  intros [Hperm Hsorted] (sid & s & Hs & Hname) Hopen.
  assert (Hnil : durations (spans_of_service db name) = []).
  { apply durations_nil_iff. intros s' Hs'. unfold spans_of_service in Hs'.
    apply list_elem_of_filter in Hs' as [Hn [sid' Hsid']%elem_of_all_spans].
    by apply (Hopen sid'). }
  assert (Hrow : ServiceRow.mk name (sql_count (spans_of_service db name))
            (sql_avg (spans_of_service db name))
            (sql_max (spans_of_service db name))
            (sql_min (spans_of_service db name)) ∈ rows).
  { rewrite Hperm. apply service_row_elem, list_elem_of_fmap.
    exists s. split; [done|]. apply elem_of_all_spans. eauto. }
  apply (null_average_raises rows _ self Hsorted Hrow).
  simpl. unfold sql_avg. by rewrite Hnil.
Qed.

Lemma get_service_performance_null_average_witness :
  let self := exec [(env_at "t1" 0 0, Start_trace "api-gateway" "create_order");
                    (env_at "s1" 0 10, Create_span "t1" "user-service" "validate_user" None);
                    (env_at "s2" 0 20, Create_span "t1" "payment-service" "charge" None);
                    (env_at "" 0 50010, End_span "s1" (Some "SELECT 1") 1 "success")]
                   init in
  let rows := fetch_service_performance_sorted (conn self) in
  ∃ r0 rest,
    rows = r0 :: rest ∧ ServiceRow.avg_duration r0 = None ∧
    get_service_performance rows self =
      mkRun [Out_banner "SERVICE PERFORMANCE SUMMARY";
             Out_service (ServiceRow.service_name r0);
             Out_service_count (ServiceRow.span_count r0)]
        (Raised TypeError) self.
Proof.
  intros self rows.
  apply (get_service_performance_null_average (conn self) rows self
           "payment-service").
  - apply (bool_decide_unpack _). vm_compute. reflexivity.
  - exists "s2". eexists. split; [vm_compute; reflexivity|reflexivity].
  - intros sid s Hs Hname.
    assert (Hel : s ∈ all_spans (conn self)) by (apply elem_of_all_spans; eauto).
    vm_compute in Hel.
    repeat (apply elem_of_cons in Hel as [->|Hel]; [done|]).
    by apply elem_of_nil in Hel.
Defined.

(** X19. On an empty span table the query answers with no row, and
    [get_service_performance] prints the banner and the closing rule and
    returns. *)
Theorem get_service_performance_no_spans db rows self :
  spans db = ∅ →
  fetch_service_performance db rows →
  rows = [] ∧
  get_service_performance rows self =
    mkRun [Out_banner "SERVICE PERFORMANCE SUMMARY"; Out_rule]
      (Returned tt) self.
Proof.
  intros Hempty [Hperm _].
  assert (rows = []) as ->; [|done].
  apply Permutation_nil_r. rewrite Hperm.
  unfold service_rows, all_spans. by rewrite Hempty, map_to_list_empty.
Qed.

Lemma get_service_performance_no_spans_witness :
  let self := exec [(env_at "t1" 0 0, Start_trace "api-gateway" "create_order")]
                   init in
  get_service_performance [] self =
    mkRun [Out_banner "SERVICE PERFORMANCE SUMMARY"; Out_rule]
      (Returned tt) self.
Proof.
  intros self.
  apply (get_service_performance_no_spans (conn self) [] self).
  - reflexivity.
  - apply (bool_decide_unpack _). vm_compute. reflexivity.
Defined.

Lemma sum_list_Z_perm l1 l2 : l1 ≡ₚ l2 → sum_list_Z l1 = sum_list_Z l2.
Proof.
  unfold sum_list_Z. induction 1; simpl; lia.
Qed.

Lemma sum_list_Z_cons d ds : sum_list_Z (d :: ds) = d + sum_list_Z ds.
Proof. done. Qed.

Lemma indicator_sum (x : string) ns :
  NoDup ns →
  sum_list_Z ((λ n, if decide (x = n) then 1 else 0) <$> ns) =
  if decide (x ∈ ns) then 1 else 0.
Proof.
  induction 1 as [|n ns Hn Hnd IH].
  - destruct (decide (x ∈ [])) as [Hel|]; [by apply elem_of_nil in Hel|done].
  - rewrite fmap_cons, sum_list_Z_cons, IH.
    destruct (decide (x = n)) as [->|Hne].
    + destruct (decide (n ∈ ns)); [done|].
      destruct (decide (n ∈ n :: ns)) as [|Hnot]; [lia|].
      exfalso. apply Hnot. left.
    + destruct (decide (x ∈ ns)) as [Hel|Hnel].
      * destruct (decide (x ∈ n :: ns)) as [|Hnot]; [lia|].
        exfalso. apply Hnot. by right.
      * destruct (decide (x ∈ n :: ns)) as [Hel|]; [|lia].
        apply elem_of_cons in Hel as [?|?]; done.
Qed.

Lemma group_sizes_add_up (l : list Span.t) ns :
  NoDup ns →
  (∀ s, s ∈ l → Span.service_name s ∈ ns) →
  sum_list_Z
    ((λ n, Z.of_nat (length (filter (λ s, Span.service_name s = n) l))) <$> ns)
  = Z.of_nat (length l).
Proof.
  intros Hnd. induction l as [|s l IH]; intros Hin.
  - clear Hnd Hin. induction ns as [|n ns IH]; [done|].
    rewrite fmap_cons, sum_list_Z_cons, IH. simpl. lia.
  - assert (Hsplit : ∀ ms : list string,
      sum_list_Z
        ((λ n, Z.of_nat (length (filter (λ s', Span.service_name s' = n)
                                   (s :: l)))) <$> ms) =
      sum_list_Z
        ((λ n, Z.of_nat (length (filter (λ s', Span.service_name s' = n) l)))
           <$> ms) +
      sum_list_Z
        ((λ n, if decide (Span.service_name s = n) then 1 else 0) <$> ms)).
    { induction ms as [|m ms IHm]; [done|].
      rewrite !fmap_cons, !sum_list_Z_cons, IHm, filter_cons.
      destruct (decide (Span.service_name s = m)); simpl length; lia. }
    rewrite Hsplit, IH, (indicator_sum _ _ Hnd).
    + destruct (decide (Span.service_name s ∈ ns)) as [|Hnot]; [simpl; lia|].
      exfalso. apply Hnot, Hin. left.
    + intros s' Hs'. apply Hin. by right.
Qed.

(** X20. The span counts of the summary add up: in every answer of the
    query the counts of all rows together are the number of spans in the
    table, so every span is counted for exactly one service. *)
Theorem service_counts_add_up db rows :
  fetch_service_performance db rows →
  sum_list_Z (ServiceRow.span_count <$> rows) = Z.of_nat (size (spans db)).
Proof.
  intros [Hperm _].
  rewrite (sum_list_Z_perm _ (ServiceRow.span_count <$> service_rows db))
    by by rewrite Hperm.
  unfold service_rows. rewrite <- list_fmap_compose.
  rewrite <- length_map_to_list.
  rewrite <- (length_fmap snd (map_to_list (spans db))).
  apply (group_sizes_add_up (all_spans db)).
  - apply NoDup_remove_dups.
  - intros s Hs. apply elem_of_remove_dups. by apply list_elem_of_fmap_2.
Qed.

Lemma service_counts_add_up_witness :
  let self := exec [(env_at "t1" 0 0, Start_trace "api-gateway" "create_order");
                    (env_at "s1" 0 0, Create_span "t1" "X" "a" None);
                    (env_at "s2" 20 20, Create_span "t1" "Y" "b" None);
                    (env_at "" 100 100, End_span "s1" None 0 "success");
                    (env_at "s3" 200 200, Create_span "t1" "X" "c" None);
                    (env_at "" 500 500, End_span "s3" None 0 "success");
                    (env_at "" 520 520, End_span "s2" None 0 "success")]
                   init in
  let rows := [ServiceRow.mk "Y" 1 (Some (Qc_of_Z 50)) (Some 50) (Some 50);
               ServiceRow.mk "X" 2 (Some (Qc_of_Z 20)) (Some 30) (Some 10)] in
  sum_list_Z (ServiceRow.span_count <$> rows) =
  Z.of_nat (size (spans (conn self))).
Proof.
  intros self rows.
  apply (service_counts_add_up (conn self) rows).
  apply (bool_decide_unpack _). vm_compute. reflexivity.
Defined.

Lemma sum_list_Z_bounds lo hi ds :
  (∀ d, d ∈ ds → lo ≤ d ≤ hi) →
  lo * Z.of_nat (length ds) ≤ sum_list_Z ds ≤ hi * Z.of_nat (length ds).
Proof.
  unfold sum_list_Z. induction ds as [|d ds IH]; intros Hb; simpl; [lia|].
  specialize (Hb d ltac:(left)) as Hd.
  assert (lo * Z.of_nat (length ds) ≤ foldr Z.add 0 ds
          ≤ hi * Z.of_nat (length ds))
    by (apply IH; intros x Hx; apply Hb; by right).
  lia.
Qed.

(** X21. In every row of the summary the three figures are null together
    (exactly when none of the spans of the service has a duration), and
    otherwise the minimum is at most the average and the average at most
    the maximum. *)
Theorem service_min_avg_max_ordered db rows row :
  fetch_service_performance db rows →
  row ∈ rows →
  match ServiceRow.avg_duration row, ServiceRow.max_duration row,
        ServiceRow.min_duration row with
  | Some a, Some mx, Some mn =>
      (Qc_of_Z mn ≤ a)%Qc ∧ (a ≤ Qc_of_Z mx)%Qc ∧ mn ≤ mx
  | None, None, None =>
      ∀ sid s, spans db !! sid = Some s →
               Span.service_name s = ServiceRow.service_name row →
               Span.duration_ms s = None
  | _, _, _ => False
  end.
Proof.
  intros [Hperm _] Hrow. rewrite Hperm in Hrow.
  rewrite (elem_of_service_rows db row Hrow). simpl.
  set (g := spans_of_service db (ServiceRow.service_name row)).
  unfold sql_avg, sql_max, sql_min.
  destruct (durations g) as [|d ds] eqn:E.
  - intros sid s Hs Hname.
    apply (proj1 (durations_nil_iff g) E). unfold g, spans_of_service.
    apply list_elem_of_filter. split; [done|]. apply elem_of_all_spans. eauto.
  - destruct (foldr_max_spec d ds) as [_ Hle].
    destruct (foldr_min_spec d ds) as [_ Hge].
    assert (Hlen : 0 < Z.of_nat (length (d :: ds))) by (simpl; lia).
    destruct (sum_list_Z_bounds (foldr Z.min d ds) (foldr Z.max d ds) (d :: ds))
      as [Hlo Hhi].
    { intros x Hx. split; [by apply Hge|by apply Hle]. }
    split; [|split].
    + apply (Qcle_div_iff _ _ _ (Qc_of_Z_pos _ Hlen)).
      rewrite <- Z2Qc_inj_mul. by apply (proj1 (Z2Qc_inj_le _ _)).
    + apply (Qcdiv_le_iff _ _ _ (Qc_of_Z_pos _ Hlen)).
      rewrite <- Z2Qc_inj_mul. by apply (proj1 (Z2Qc_inj_le _ _)).
    + specialize (Hge d ltac:(left)). specialize (Hle d ltac:(left)). lia.
Qed.

Lemma service_min_avg_max_ordered_witness :
  let self := exec [(env_at "t1" 0 0, Start_trace "api-gateway" "create_order");
                    (env_at "s1" 0 0, Create_span "t1" "X" "a" None);
                    (env_at "s2" 20 20, Create_span "t1" "Y" "b" None);
                    (env_at "" 100 100, End_span "s1" None 0 "success");
                    (env_at "s3" 200 200, Create_span "t1" "X" "c" None);
                    (env_at "" 500 500, End_span "s3" None 0 "success");
                    (env_at "" 520 520, End_span "s2" None 0 "success")]
                   init in
  (Qc_of_Z 10 ≤ Qc_of_Z 20)%Qc ∧ (Qc_of_Z 20 ≤ Qc_of_Z 30)%Qc ∧ 10 ≤ 30.
Proof.
  intros self.
  apply (service_min_avg_max_ordered (conn self)
           [ServiceRow.mk "Y" 1 (Some (Qc_of_Z 50)) (Some 50) (Some 50);
            ServiceRow.mk "X" 2 (Some (Qc_of_Z 20)) (Some 30) (Some 10)]
           (ServiceRow.mk "X" 2 (Some (Qc_of_Z 20)) (Some 30) (Some 10))).
  - apply (bool_decide_unpack _). vm_compute. reflexivity.
  - right. left.
Defined.

(** * The recorder and the analysis together *)

Lemma fetch_spans_elem_inv db trace_id recs sid s :
  fetch_spans db trace_id recs → (sid, s) ∈ recs →
  spans db !! sid = Some s ∧ Span.trace_id s = trace_id.
Proof.
  intros [Hperm _] Hel. rewrite Hperm in Hel. unfold spans_of_trace in Hel.
  apply list_elem_of_filter in Hel as [Ht Hel].
  by apply elem_of_map_to_list in Hel.
Qed.

(** X22. Which traces can be analyzed: in every state the recorder
    reaches from a fresh one, [analyze_trace] on a trace that has a row
    returns normally exactly when the trace has been ended (it is no
    longer in [active_traces]), it has at least one span, and every one of
    its spans has been ended; on every other existing trace it raises. *)
Theorem analyze_trace_needs_closed_trace cs trace_id recs :
  let self := exec cs init in
  is_Some (traces (conn self) !! trace_id) →
  fetch_spans (conn self) trace_id recs →
  (outcome (analyze_trace (select_row <$> recs) trace_id self) = Returned tt ↔
   active_traces self !! trace_id = None ∧
   recs ≠ [] ∧
   ∀ sid s, spans (conn self) !! sid = Some s → Span.trace_id s = trace_id →
            is_Some (Span.end_time s)).
Proof.
  intros self [r Hr] Hfetch.
  destruct (reachable_well_formed cs) as (Hopen & _ & Hspan).
  pose proof (reachable_closed_traces_have_duration cs) as Hclosed.
  fold self in Hopen, Hspan, Hclosed.
  rewrite analyze_trace_outcome_cases, Hr. split.
  - intros Hout.
    destruct (Trace.duration_ms r) as [d|] eqn:Hd; [|done].
    destruct (decide _) as [Hall|]; [|done].
    split; [|split].
    + destruct (active_traces self !! trace_id) as [info|] eqn:E; [|done].
      destruct (Hopen trace_id) as (r' & Hr' & _ & _ & Hnone); [by eexists|].
      congruence.
    + intros ->. done.
    + intros sid s Hs Ht.
      pose proof (fetch_spans_elem _ _ _ _ _ Hfetch Hs Ht) as Hel.
      apply (list_elem_of_fmap_2 select_row) in Hel.
      apply list_elem_of_lookup in Hel as [i Hi].
      pose proof (Forall_lookup_1 _ _ _ _ Hall Hi) as [k Hk]. simpl in Hk.
      destruct (Hspan _ _ Hs) as [_ Hshape].
      destruct (Span.end_time s); [done|].
      destruct Hshape as [Hnone _]. congruence.
  - intros (Hactive & Hne & Hended).
    destruct (Hclosed _ _ Hr Hactive) as [_ [d Hd]]. rewrite Hd.
    rewrite decide_True.
    + by destruct recs.
    + apply Forall_fmap, Forall_lookup. intros i [sid s] Hi.
      assert (Hel : (sid, s) ∈ recs) by (apply list_elem_of_lookup; eauto).
      destruct (fetch_spans_elem_inv _ _ _ _ _ Hfetch Hel) as [Hs Ht].
      destruct (Hended _ _ Hs Ht) as [e He].
      destruct (Hspan _ _ Hs) as [_ Hshape]. rewrite He in Hshape.
      destruct Hshape as [Hdur _]. simpl. by rewrite Hdur.
Qed.

Lemma analyze_trace_needs_closed_trace_witness :
  let cs := [(env_at "t1" 0 0, Start_trace "api-gateway" "create_order");
             (env_at "s1" 0 10, Create_span "t1" "user-service" "validate_user" None);
             (env_at "" 0 50010, End_span "s1" (Some "SELECT 1") 1 "success");
             (env_at "" 60000 60000, End_trace "t1" "success")] in
  let self := exec cs init in
  outcome (analyze_trace (select_row <$> fetch_spans_sorted (conn self) "t1")
             "t1" self) = Returned tt.
Proof.
  intros cs self.
  apply (analyze_trace_needs_closed_trace cs "t1"
           (fetch_spans_sorted (conn (exec cs init)) "t1")).
  - vm_compute. eauto.
  - apply (bool_decide_unpack _). vm_compute. reflexivity.
  - split; [vm_compute; reflexivity|]. split; [vm_compute; discriminate|].
    intros sid s Hs Ht.
    assert (Hel : s ∈ all_spans (conn (exec cs init)))
      by (apply elem_of_all_spans; eauto).
    vm_compute in Hel.
    repeat (apply elem_of_cons in Hel as [->|Hel]; [by eexists|]).
    by apply elem_of_nil in Hel.
Defined.

(** X23. When the summary can be printed: for every answer of the query,
    [get_service_performance] returns normally exactly when every service
    that has a span has at least one span with a duration; otherwise it
    raises. *)
Theorem get_service_performance_returns_iff db rows self :
  fetch_service_performance db rows →
  (outcome (get_service_performance rows self) = Returned tt ↔
   ∀ sid s, spans db !! sid = Some s →
     ∃ sid' s', spans db !! sid' = Some s' ∧
                Span.service_name s' = Span.service_name s ∧
                is_Some (Span.duration_ms s')).
Proof.
  intros [Hperm Hsorted]. split.
  - intros Hout sid s Hs.
    set (g := spans_of_service db (Span.service_name s)).
    assert (Hrow : ServiceRow.mk (Span.service_name s) (sql_count g)
              (sql_avg g) (sql_max g) (sql_min g) ∈ rows).
    { rewrite Hperm. apply service_row_elem, list_elem_of_fmap_2.
      apply elem_of_all_spans. eauto. }
    pose proof (sql_avg_spec g) as Havg.
    destruct (sql_avg g) as [a|] eqn:Ea.
    + destruct Havg as [Hne _].
      destruct (durations g) as [|d ds] eqn:Ed; [done|].
      assert (Hd : d ∈ durations g) by (rewrite Ed; left).
      apply list_elem_of_omap in Hd as (s' & Hs' & Hd).
      unfold g, spans_of_service in Hs'.
      apply list_elem_of_filter in Hs' as [Hn [sid' Hsid']%elem_of_all_spans].
      exists sid', s'. by rewrite Hd.
    + destruct (null_average_raises rows _ self Hsorted Hrow)
        as (r0 & rest & _ & _ & Hrun); [by simpl|].
      rewrite Hrun in Hout. discriminate.
  - intros Hall. unfold get_service_performance. run_py.
    rewrite service_loop_ok; [done|].
    apply Forall_lookup. intros i row Hi.
    assert (Hrow : row ∈ service_rows db).
    { rewrite <- Hperm. apply list_elem_of_lookup. eauto. }
    assert (Hname : ServiceRow.service_name row
                    ∈ ServiceRow.service_name <$> service_rows db)
      by by apply list_elem_of_fmap_2.
    rewrite service_rows_names, elem_of_remove_dups in Hname.
    apply list_elem_of_fmap in Hname as (s & Hs & [sid Hsid]%elem_of_all_spans).
    destruct (Hall _ _ Hsid) as (sid' & s' & Hs' & Hn & [d Hd]).
    assert (Hne : durations (spans_of_service db (ServiceRow.service_name row))
                  ≠ []).
    { intros Hnil.
      rewrite (proj1 (durations_nil_iff _) Hnil s') in Hd; [done|].
      apply list_elem_of_filter. split; [congruence|].
      apply elem_of_all_spans. eauto. }
    rewrite (elem_of_service_rows db row Hrow). simpl.
    pose proof (sql_avg_spec (spans_of_service db (ServiceRow.service_name row))).
    pose proof (sql_max_spec (spans_of_service db (ServiceRow.service_name row))).
    pose proof (sql_min_spec (spans_of_service db (ServiceRow.service_name row))).
    destruct (sql_avg _), (sql_max _), (sql_min _); naive_solver.
Qed.

Lemma get_service_performance_returns_iff_witness :
  let self := exec [(env_at "t1" 0 0, Start_trace "api-gateway" "create_order");
                    (env_at "s1" 0 0, Create_span "t1" "X" "a" None);
                    (env_at "s3" 200 200, Create_span "t1" "X" "c" None);
                    (env_at "" 500 500, End_span "s3" None 0 "success")]
                   init in
  outcome (get_service_performance
             [ServiceRow.mk "X" 2 (Some (Qc_of_Z 30)) (Some 30) (Some 30)] self)
  = Returned tt.
Proof.
  intros self.
  apply (get_service_performance_returns_iff (conn self)
           [ServiceRow.mk "X" 2 (Some (Qc_of_Z 30)) (Some 30) (Some 30)] self).
  - apply (bool_decide_unpack _). vm_compute. reflexivity.
  - intros sid s Hs. exists "s3". eexists.
    split; [vm_compute; reflexivity|].
    assert (Hel : s ∈ all_spans (conn self)) by (apply elem_of_all_spans; eauto).
    vm_compute in Hel.
    repeat (apply elem_of_cons in Hel as [->|Hel]; [by split; [|eexists]|]).
    by apply elem_of_nil in Hel.
Defined.

(** * The columns of the schema *)

Lemma to_varchar_char_length n s c :
  to_varchar n s = Some c → (char_length c ≤ n)%nat.
Proof.
  intros H. destruct (to_varchar_length n s c H) as [Hle| ->].
  - unfold to_varchar in H.
    rewrite (proj2 (Nat.leb_le _ _) Hle) in H. by injection H as <-.
  - rewrite (proj1 (prefix_spec s n)). apply Nat.le_min_l.
Qed.

Lemma fits_decimal_spec d :
  fits_decimal d = true ↔ -10000000000 < d < 10000000000.
Proof. unfold fits_decimal. rewrite Z.ltb_lt. lia. Qed.

Lemma fits_int_spec n :
  fits_int n = true ↔ -2147483648 ≤ n ≤ 2147483647.
Proof. unfold fits_int. rewrite andb_true_iff, !Z.leb_le. lia. Qed.

Lemma id_fits_spec id : id_fits id = true ↔ (char_length id ≤ 36)%nat.
Proof. unfold id_fits. apply Nat.leb_le. Qed.

(** X25. The four calls of the recorder are all or nothing: one that
    raises has logged nothing and has left both tables and
    [active_traces] as they were.  [start_trace] and [create_span] raise
    [DataError] or [IntegrityError], [end_trace] and [end_span] raise
    [DataError] only; and an [end_trace] that raised was given an open
    trace, which is still open. *)
Theorem recorder_calls_are_all_or_nothing env self e :
  (∀ service_name operation_name,
     let run := start_trace env service_name operation_name self in
     outcome run = Raised e →
     run = mkRun [] (Raised e) self ∧ (e = DataError ∨ e = IntegrityError)) ∧
  (∀ trace_id status,
     let run := end_trace env trace_id status self in
     outcome run = Raised e →
     run = mkRun [] (Raised e) self ∧ e = DataError ∧
     is_Some (active_traces (self_after run) !! trace_id)) ∧
  (∀ trace_id service_name operation_name parent_span_id,
     let run := create_span env trace_id service_name operation_name
                  parent_span_id self in
     outcome run = Raised e →
     run = mkRun [] (Raised e) self ∧ (e = DataError ∨ e = IntegrityError)) ∧
  (∀ span_id query rows_affected status,
     let run := end_span env span_id query rows_affected status self in
     outcome run = Raised e →
     run = mkRun [] (Raised e) self ∧ e = DataError).
Proof.
  split; [|split; [|split]].
  - intros service_name operation_name run Hout. subst run.
    unfold start_trace in *. revert Hout. run_py.
    destruct (id_fits (uuid4 env)); simpl; [|intros [= <-]; eauto].
    destruct (to_varchar 100 service_name); [|intros [= <-]; eauto].
    destruct (to_varchar 100 operation_name); [|intros [= <-]; eauto].
    destruct (traces (conn self) !! uuid4 env); [|done].
    intros [= <-]. eauto.
  - intros trace_id status run Hout. subst run.
    destruct (end_trace_cases env trace_id status self)
      as [[_ Hrun]|[[Hopen Hrun]|(info & st & _ & _ & _ & Hrun)]];
      rewrite Hrun in Hout |- *; simpl in *; try discriminate.
    by injection Hout as <-.
  - intros trace_id service_name operation_name parent_span_id run Hout.
    subst run. unfold create_span in *. revert Hout. run_py.
    destruct (id_fits (uuid4 env)); simpl; [|intros [= <-]; eauto].
    destruct (to_varchar 36 trace_id) as [trace|]; [|intros [= <-]; eauto].
    destruct (to_varchar_null 36 parent_span_id);
      [|intros [= <-]; eauto].
    destruct (to_varchar 100 service_name); [|intros [= <-]; eauto].
    destruct (to_varchar 100 operation_name); [|intros [= <-]; eauto].
    destruct (traces (conn self) !! trace), (spans (conn self) !! uuid4 env);
      try done; intros [= <-]; eauto.
  - intros span_id query rows_affected status run Hout. subst run.
    unfold end_span in *. revert Hout. run_py.
    destruct (to_varchar 20 status); [|intros [= <-]; eauto].
    destruct (fits_int rows_affected); [|intros [= <-]; eauto].
    destruct (spans (conn self) !! span_id) as [s0|]; [|done].
    destruct (fits_decimal _); [done|]. intros [= <-]. eauto.
Qed.

Lemma recorder_calls_are_all_or_nothing_witness :
  let self := exec [(env_at "t1" 0 0, Start_trace "api-gateway" "create_order");
                    (env_at "s1" 0 10, Create_span "t1" "user-service"
                                         "validate_user" None)] init in
  end_span (env_at "" 0 50010) "s1" (Some "SELECT 1") 2147483648 "success" self
    = mkRun [] (Raised DataError) self ∧
  end_trace (env_at "" 100000000000 0) "t1" "success" self
    = mkRun [] (Raised DataError) self ∧
  is_Some (active_traces self !! "t1").
Proof.
  intros self.
  destruct (recorder_calls_are_all_or_nothing (env_at "" 0 50010) self
              DataError) as (_ & _ & _ & Hspan).
  destruct (recorder_calls_are_all_or_nothing (env_at "" 100000000000 0) self
              DataError) as (_ & Htrace & _).
  split; [|split].
  - apply (Hspan "s1" (Some "SELECT 1") 2147483648 "success").
    vm_compute. reflexivity.
  - apply (Htrace "t1" "success"). vm_compute. reflexivity.
  - destruct (Htrace "t1" "success") as (Hrun & _ & Hopen);
      [vm_compute; reflexivity|].
    rewrite Hrun in Hopen. exact Hopen.
Defined.

Lemma columns_fit_init : columns_fit init.
Proof. split; intros k x H; simpl in H; by rewrite lookup_empty in H. Qed.

Lemma columns_fit_call env c self :
  columns_fit self → columns_fit (self_after (call env c self)).
Proof.
  intros [Htr Hsp]. destruct c; unfold call.
  - rewrite self_after_then_ret.
    unfold start_trace. run_py.
    destruct (id_fits (uuid4 env)) eqn:Hid; simpl; [|done].
    destruct (to_varchar 100 service_name) as [sv|] eqn:Hsv; [|done].
    destruct (to_varchar 100 operation_name) as [op|] eqn:Hop; [|done].
    destruct (traces (conn self) !! uuid4 env) eqn:E; [done|].
    split; simpl; [|done].
    intros tid r Hr. destruct (decide (uuid4 env = tid)) as [<-|Hne].
    + rewrite lookup_insert_eq in Hr. injection Hr as <-.
      unfold trace_fits. simpl.
      split; [by apply id_fits_spec|].
      split; [by eapply to_varchar_char_length|].
      split; [by eapply to_varchar_char_length|].
      split; [vm_compute; lia|done].
    + rewrite lookup_insert_ne in Hr by done. eauto.
  - destruct (end_trace_cases env trace_id status self)
      as [[_ ->]|[[_ ->]|(info & st & E & Hst & Hd & ->)]]; [done..|].
    split; simpl; [|done].
    intros tid r Hr. apply lookup_alter_Some in Hr
      as [(<- & r0 & Hr0 & ->)|(_ & Hr)]; [|eauto].
    destruct (Htr _ _ Hr0) as (H1 & H2 & H3 & _).
    unfold trace_fits. simpl. do 3 (split; [done|]).
    split; [by eapply to_varchar_char_length|].
    intros d [= <-]. by apply fits_decimal_spec.
  - rewrite self_after_then_ret.
    unfold create_span. run_py.
    destruct (id_fits (uuid4 env)) eqn:Hid; simpl; [|done].
    destruct (to_varchar 36 trace_id) as [trace|] eqn:Ht; [|done].
    destruct (to_varchar_null 36 parent_span_id) as [parent|] eqn:Hp;
      [|done].
    destruct (to_varchar 100 service_name) as [sv|] eqn:Hsv; [|done].
    destruct (to_varchar 100 operation_name) as [op|] eqn:Hop; [|done].
    destruct (traces (conn self) !! trace), (spans (conn self) !! uuid4 env);
      try done.
    split; simpl; [done|].
    intros sid s Hs. destruct (decide (uuid4 env = sid)) as [<-|Hne].
    + rewrite lookup_insert_eq in Hs. injection Hs as <-.
      unfold span_fits. simpl.
      split; [by apply id_fits_spec|].
      split; [by eapply to_varchar_char_length|].
      split.
      { intros p ->. unfold to_varchar_null in Hp.
        destruct parent_span_id as [p0|]; [|done].
        destruct (to_varchar 36 p0) as [p1|] eqn:Hp1; [|done].
        injection Hp as <-. by eapply to_varchar_char_length. }
      split; [by eapply to_varchar_char_length|].
      split; [by eapply to_varchar_char_length|].
      split; [vm_compute; lia|done].
    + rewrite lookup_insert_ne in Hs by done. eauto.
  - unfold end_span. run_py.
    destruct (to_varchar 20 status) as [st|] eqn:Hst; [|done].
    destruct (fits_int rows_affected) eqn:Hn; [|done].
    destruct (spans (conn self) !! span_id) as [s0|] eqn:E; [|done].
    destruct (fits_decimal _) eqn:Hd; [|done].
    split; simpl; [done|].
    intros sid s Hs. apply lookup_alter_Some in Hs
      as [(<- & s1 & Hs1 & ->)|(_ & Hs)]; [|eauto].
    assert (s1 = s0) as -> by congruence.
    destruct (Hsp _ _ Hs1) as (H1 & H2 & H3 & H4 & H5 & _).
    unfold span_fits. simpl. do 5 (split; [done|]).
    split; [by eapply to_varchar_char_length|].
    split.
    + intros d [= <-]. by apply fits_decimal_spec.
    + intros n [= <-]. by apply fits_int_spec.
  - by rewrite analyze_trace_pure.
  - by rewrite get_service_performance_pure.
Qed.

Lemma reachable_columns_fit cs : columns_fit (exec cs init).
Proof.
  assert (∀ self, columns_fit self → columns_fit (exec cs self)) as Hexec.
  { induction cs as [|[env c] cs IH]; intros self Hinv; [done|].
    simpl. by apply IH, columns_fit_call. }
  apply Hexec, columns_fit_init.
Qed.

(** X26. What the two tables hold fits the schema of [setup]: in every
    state the recorder reaches from a fresh one, the ids have at most 36
    characters, the service and operation names at most 100 and the
    status at most 20; a duration has less than eight digits before its
    two decimals, and an affected count is a 32-bit integer. *)
Theorem stored_values_fit_their_columns cs :
  (∀ trace_id r,
     traces (conn (exec cs init)) !! trace_id = Some r →
     (char_length trace_id ≤ 36)%nat ∧
     (char_length (Trace.service_name r) ≤ 100)%nat ∧
     (char_length (Trace.operation_name r) ≤ 100)%nat ∧
     (char_length (Trace.status r) ≤ 20)%nat ∧
     (∀ d, Trace.duration_ms r = Some d →
           -10000000000 < d < 10000000000)) ∧
  (∀ span_id s,
     spans (conn (exec cs init)) !! span_id = Some s →
     (char_length span_id ≤ 36)%nat ∧
     (char_length (Span.trace_id s) ≤ 36)%nat ∧
     (∀ p, Span.parent_span_id s = Some p → (char_length p ≤ 36)%nat) ∧
     (char_length (Span.service_name s) ≤ 100)%nat ∧
     (char_length (Span.operation_name s) ≤ 100)%nat ∧
     (char_length (Span.status s) ≤ 20)%nat ∧
     (∀ d, Span.duration_ms s = Some d →
           -10000000000 < d < 10000000000) ∧
     (∀ n, Span.rows_affected s = Some n →
           -2147483648 ≤ n ≤ 2147483647)).
Proof.
  destruct (reachable_columns_fit cs) as [Htr Hsp]. split.
  - intros trace_id r Hr. apply (Htr _ _ Hr).
  - intros span_id s Hs. apply (Hsp _ _ Hs).
Qed.

Lemma stored_values_fit_their_columns_witness :
  let cs := [(env_at "t1" 0 0, Start_trace "api-gateway" "create_order");
             (env_at "s1" 0 10, Create_span "t1" "user-service" "validate_user" None);
             (env_at "" 0 50013,
              End_span "s1" (Some "SELECT 1") 1 "success                   ");
             (env_at "" 0 60000, End_span "s1" None 4294967296 "success")] in
  spans (conn (exec cs init)) !! "s1" =
    Some (Span.mk "t1" None "user-service" "validate_user" 10 (Some 50013)
            (Some 5000) (Some "SELECT 1") (Some 1) "success             ") ∧
  (char_length "success             " ≤ 20)%nat ∧
  (∀ n, Some 1 = Some n → -2147483648 ≤ n ≤ 2147483647).
Proof.
  intros cs.
  assert (Hs : spans (conn (exec cs init)) !! "s1" =
    Some (Span.mk "t1" None "user-service" "validate_user" 10 (Some 50013)
            (Some 5000) (Some "SELECT 1") (Some 1) "success             "))
    by (vm_compute; reflexivity).
  split; [exact Hs|].
  destruct (proj2 (stored_values_fit_their_columns cs) "s1" _ Hs)
    as (_ & _ & _ & _ & _ & Hst & _ & Hn).
  split; [exact Hst|exact Hn].
Defined.
